(** * hiit-timer: the launcher-icon generator [scripts/generate_icons.py]

    A shallow embedding of the script and the properties of its
    specification.  The script is effectful: it consults the Python
    environment (is Pillow importable, which fonts load), prints, runs one
    shell command and writes files.  The embedding threads an explicit
    [state] (the module's globals, the directory tree, the observable
    trace) through a state-and-exception monad, and takes everything the
    script cannot control from a [world] record.

    Scope of the platform model: one directory tree without symbolic links
    or permissions, paths are not normalised for [.] and [..], text files
    are written with POSIX line endings, and the drawing library's own
    operations ([Image.new], [textbbox], [draw.text], the PNG encoder) do
    not raise once the library is reachable.  Three consequences, kept in
    mind by the statements below.  The tree holds what the script's own
    calls write: what the shell command of line 73 writes on its own
    account (the package it installs) is not part of it.  A path with a
    [.] or [..] component, or with a name the file system refuses, leads
    elsewhere than its key says: the properties that depend on where a
    path leads are stated for [ordinary_path]s, which the ten paths of the
    table are.  And [draw.text] is given the font it is called with: with
    [font=None] Pillow loads its default font once more, so in a world in
    which no font loads at all the call of line 47 would raise where the
    embedding goes on; the properties that tell what is drawn with which
    font are stated for worlds in which a font loads. *)

From Stdlib Require Import ZArith Ascii String.
From stdpp Require Import base gmap strings list.

Local Open Scope Z_scope.

(** ** Data *)

(** A font object as handed out by [ImageFont]. *)
Inductive font :=
  | FreeTypeFont (file : string) (points : Z)
  | DefaultFont.

(** One [draw.text(xy, text, fill=..., font=...)] call. *)
Record text_op := TextOp {
  at_xy : Z * Z;
  label : string;
  fill : string;
  with_font : option font }.

(** An image under construction: the arguments of [Image.new] and the text
    drawn on it so far, oldest first. *)
Record image := Image {
  mode : string;
  width : Z;
  height : Z;
  background : string;
  drawn : list text_op }.

(** What a regular file holds: text written through [open(..., 'w')], or
    the PNG encoding of an image. *)
Inductive content :=
  | Text (s : string)
  | Png (img : image).

Inductive node :=
  | Dir
  | File (c : content).

(** The exceptions the script can meet. *)
Inductive exn :=
  | NameError (name : string)
  | ImportError (name : string)
  | OSError (msg : string)
  | FileExistsError
  | FileNotFoundError
  | NotADirectoryError
  | IsADirectoryError.

(** What an observer of the process sees, besides the files. [Invoked]
    records an entry into [create_icon]. *)
Inductive event :=
  | Printed (line : string)
  | Shell (cmd : string)
  | Invoked (size : Z) (output_path : string).

(** The directory tree, keyed by path components. *)
Abbreviation tree := (gmap (list string) node).

Record state := State {
  PIL_AVAILABLE : bool;
  (** are [Image], [ImageDraw] and [ImageFont] bound in the module's
      global namespace (line 7)? *)
  pil_globals : bool;
  files : tree;
  trace : list event }.

(** Everything decided outside the script. *)
Record world := World {
  (** does [from PIL import ...] succeed when the module is loaded? *)
  pil_installed : bool;
  (** does it succeed after [pip3 install Pillow] has been run? *)
  pip_provides_pil : bool;
  truetype_loads : string -> Z -> bool;
  default_font_loads : bool;
  (** [draw.textbbox((0, 0), text, font=font)]: left, top, right, bottom *)
  textbbox : font -> string -> Z * Z * Z * Z }.

#[global] Instance font_eq_dec : EqDecision font.
Proof. solve_decision. Defined.
#[global] Instance text_op_eq_dec : EqDecision text_op.
Proof. solve_decision. Defined.
#[global] Instance image_eq_dec : EqDecision image.
Proof. solve_decision. Defined.
#[global] Instance content_eq_dec : EqDecision content.
Proof. solve_decision. Defined.
#[global] Instance node_eq_dec : EqDecision node.
Proof. solve_decision. Defined.
#[global] Instance exn_eq_dec : EqDecision exn.
Proof. solve_decision. Defined.
#[global] Instance event_eq_dec : EqDecision event.
Proof. solve_decision. Defined.

(** ** The state-and-exception monad

    A raised exception keeps the state reached so far: files already
    written stay written. *)

Inductive result (A : Type) :=
  | Ok (a : A)
  | Raise (e : exn).
Arguments Ok {A} a.
Arguments Raise {A} e.

Definition M (A : Type) : Type := state -> result A * state.

Definition ret {A} (a : A) : M A := fun st => (Ok a, st).

Definition bind {A B} (m : M A) (k : A -> M B) : M B :=
  fun st =>
    match m st with
    | (Ok a, st') => k a st'
    | (Raise e, st') => (Raise e, st')
    end.

Definition raise {A} (e : exn) : M A := fun st => (Raise e, st).

(** [try: m  except <handles>: h] *)
Definition try_except {A} (m : M A) (handles : exn -> bool) (h : M A) : M A :=
  fun st =>
    match m st with
    | (Ok a, st') => (Ok a, st')
    | (Raise e, st') => if handles e then h st' else (Raise e, st')
    end.

Declare Scope py_scope.
Delimit Scope py_scope with py.
Notation "x <- m ;; k" := (bind m (fun x => k))
  (at level 100, m at next level, right associativity) : py_scope.
Notation "m ;; k" := (bind m (fun _ => k))
  (at level 100, right associativity) : py_scope.
Local Open Scope py_scope.

(** [for x in l: body x] *)
Fixpoint for_each {A} (l : list A) (body : A -> M unit) : M unit :=
  match l with
  | [] => ret tt
  | x :: l' => body x ;; for_each l' body
  end.

Definition get {A} (f : state -> A) : M A := fun st => (Ok (f st), st).

Definition emit (e : event) : M unit :=
  fun st => (Ok tt, State (PIL_AVAILABLE st) (pil_globals st) (files st)
                          (trace st ++ [e])).

Definition print (line : string) : M unit := emit (Printed line).

Definition set_PIL_AVAILABLE (b : bool) : M unit :=
  fun st => (Ok tt, State b (pil_globals st) (files st) (trace st)).

(** Run a file-system primitive on the tree of the state. *)
Definition on_files (op : tree -> result unit * tree) : M unit :=
  fun st =>
    let '(r, t) := op (files st) in
    (r, State (PIL_AVAILABLE st) (pil_globals st) t (trace st)).

(** ** Paths *)

Definition slash : ascii := "/"%char.

(** [os.path.dirname]: everything before the last slash, with the slashes
    at its end removed unless it consists of slashes only. *)
Fixpoint upto_last_slash_rev (r : list ascii) : list ascii :=
  match r with
  | [] => []
  | c :: r' => if Ascii.eqb c slash then r else upto_last_slash_rev r'
  end.

Fixpoint lstrip_slashes (r : list ascii) : list ascii :=
  match r with
  | [] => []
  | c :: r' => if Ascii.eqb c slash then lstrip_slashes r' else r
  end.

Definition dirname (p : string) : string :=
  let head_rev := upto_last_slash_rev (List.rev (list_ascii_of_string p)) in
  let head_rev :=
    match lstrip_slashes head_rev with
    | [] => head_rev
    | stripped => stripped
    end in
  string_of_list_ascii (List.rev head_rev).

Fixpoint split_slash (s : string) : list string :=
  match s with
  | EmptyString => [EmptyString]
  | String c s' =>
      if Ascii.eqb c slash then EmptyString :: split_slash s'
      else match split_slash s' with
           | [] => [String c EmptyString]
           | w :: ws => String c w :: ws
           end
  end.

Definition nonempty (s : string) : bool :=
  match s with EmptyString => false | _ => true end.

(** The key of a path in the tree: its components, led by ["/"] when the
    path is absolute. The names [.] and [..] are kept as they are written;
    the key tells where the path leads for paths without them. *)
Definition components (p : string) : list string :=
  match p with
  | String c _ =>
      (if Ascii.eqb c slash then ["/"%string] else [])
        ++ List.filter nonempty (split_slash p)
  | EmptyString => []
  end.

(** ** The file system *)

(** The working directory (no components) and the root are directories
    that always exist. *)
Definition always_there (k : list string) : bool :=
  match k with
  | [] => true
  | [r] => String.eqb r "/"
  | _ => false
  end.

Definition node_at (t : tree) (k : list string) : option node :=
  if always_there k then Some Dir else t !! k.

(** The effect of [os.makedirs(d, exist_ok=True)] seen from the top of the
    tree: every missing directory on the way is created, an existing one
    is kept, and a regular file in the way is an error. *)
Fixpoint mkdir_p (above below : list string) (t : tree) : result unit * tree :=
  match below with
  | [] => (Ok tt, t)
  | c :: below' =>
      let k := above ++ [c] in
      match node_at t k with
      | Some Dir => mkdir_p k below' t
      | Some (File _) =>
          (Raise (match below' with
                  | [] => FileExistsError
                  | _ => NotADirectoryError
                  end), t)
      | None => mkdir_p k below' (<[k := Dir]> t)
      end
  end.

Definition makedirs (d : string) : M unit :=
  match d with
  | EmptyString => raise FileNotFoundError
  | _ => on_files (mkdir_p [] (components d))
  end.

(** Creating or truncating the regular file at [k] and storing [c] in it:
    what [open(path, 'w')] and [img.save(path, 'PNG')] have in common. *)
Definition store (k : list string) (c : content) (t : tree) : result unit * tree :=
  match node_at t k with
  | Some Dir => (Raise IsADirectoryError, t)
  | _ =>
      match node_at t (removelast k) with
      | Some Dir => (Ok tt, <[k := File c]> t)
      | Some (File _) => (Raise NotADirectoryError, t)
      | None => (Raise FileNotFoundError, t)
      end
  end.

(** [open(path, 'w')]; the handle is the key of the file. *)
Definition open_w (path : string) : M (list string) :=
  match path with
  | EmptyString => raise FileNotFoundError
  | _ => on_files (store (components path) (Text "")) ;; ret (components path)
  end.

(** [f.write(s)] on a handle from [open_w]; the [with] block closes it. *)
Definition f_write (f : list string) (s : string) : M unit :=
  on_files (fun t =>
    (Ok tt, match t !! f with
            | Some (File (Text old)) => <[f := File (Text (old +:+ s))]> t
            | _ => t
            end)).

(** ** The script *)

Section Script.

Variable w : world.

(** *** The drawing library, as the script reaches it *)

(** Reading a module-level name: the names of line 7 are bound only when
    that import succeeded. *)
Definition global_name (name : string) : M unit :=
  fun st =>
    if pil_globals st then (Ok tt, st) else (Raise (NameError name), st).

Definition Image_new (mode : string) (size : Z * Z) (color : string) : M image :=
  global_name "Image" ;;
  ret (Image mode (fst size) (snd size) color []).

Definition ImageDraw_Draw (img : image) : M unit :=
  global_name "ImageDraw".

Definition ImageFont_truetype (file : string) (points : Z) : M font :=
  global_name "ImageFont" ;;
  if truetype_loads w file points then ret (FreeTypeFont file points)
  else raise (OSError "cannot open resource").

Definition ImageFont_load_default : M font :=
  global_name "ImageFont" ;;
  if default_font_loads w then ret DefaultFont
  else raise (OSError "cannot open resource").

Definition draw_textbbox (text : string) (f : font) : M (Z * Z * Z * Z) :=
  ret (textbbox w f text).

(** [draw.text(xy, text, fill=..., font=...)], recorded with the font it
    is called with. Pillow's own fall back to its default font when the
    font is [None], and its failure when that font cannot be loaded, are
    outside the embedding. *)
Definition draw_text (img : image) (xy : Z * Z) (text fill : string)
    (f : option font) : image :=
  Image (mode img) (width img) (height img) (background img)
        (drawn img ++ [TextOp xy text fill f]).

Definition img_save (img : image) (path : string) : M unit :=
  match path with
  | EmptyString => raise FileNotFoundError
  | _ => on_files (store (components path) (Png img))
  end.

(** [os.system(cmd)]: the command is recorded; whether it helped shows in
    [pip_provides_pil]. What the command writes on its own account is not
    part of the tree. *)
Definition os_system (cmd : string) : M unit := emit (Shell cmd).

(** [from PIL import Image, ImageDraw, ImageFont] *)
Definition import_PIL (importable : bool) : M unit :=
  if importable then ret tt else raise (ImportError "PIL").

Definition bind_pil_globals : M unit :=
  fun st => (Ok tt, State (PIL_AVAILABLE st) true (files st) (trace st)).

Definition is_ImportError (e : exn) : bool :=
  match e with ImportError _ => true | _ => false end.

Definition any_exception (e : exn) : bool := true.

(** *** Lines 6-10: loading the module *)

Definition load_module : M unit :=
  try_except
    (import_PIL (pil_installed w) ;;
     bind_pil_globals ;;
     set_PIL_AVAILABLE true)
    is_ImportError
    (set_PIL_AVAILABLE false).

(** *** Lines 14-52 *)

Definition create_icon (size : Z) (output_path : string) : M unit :=
  emit (Invoked size output_path) ;;
  available <- get PIL_AVAILABLE ;;
  if negb available then
    print ("PIL not available, skipping " +:+ output_path)
  else
    img <- Image_new "RGB" (size, size) "#1976D2" ;;
    ImageDraw_Draw img ;;
    f <- try_except
           (let font_size := Z.max (size / 6) 12 in
            f <- ImageFont_truetype "/System/Library/Fonts/Arial.ttf" font_size ;;
            ret (Some f))
           any_exception
           (try_except
              (f <- ImageFont_load_default ;; ret (Some f))
              any_exception
              (ret None)) ;;
    let text := "HT"%string in
    dims <- match f with
            | Some fnt =>
                bbox <- draw_textbbox text fnt ;;
                let '(x0, y0, x1, y1) := bbox in
                ret (x1 - x0, y1 - y0)
            | None => ret (size / 3, size / 4)
            end ;;
    let '(text_width, text_height) := dims in
    let x := (size - text_width) / 2 in
    let y := (size - text_height) / 2 in
    let img := draw_text img (x, y) text "white" f in
    makedirs (dirname output_path) ;;
    img_save img output_path ;;
    print ("Created " +:+ output_path).

(** *** Lines 54-86 *)

Definition icons : list (Z * string) :=
  [ (72, "app/src/main/res/mipmap-hdpi/ic_launcher.png");
    (72, "app/src/main/res/mipmap-hdpi/ic_launcher_round.png");
    (48, "app/src/main/res/mipmap-mdpi/ic_launcher.png");
    (48, "app/src/main/res/mipmap-mdpi/ic_launcher_round.png");
    (96, "app/src/main/res/mipmap-xhdpi/ic_launcher.png");
    (96, "app/src/main/res/mipmap-xhdpi/ic_launcher_round.png");
    (144, "app/src/main/res/mipmap-xxhdpi/ic_launcher.png");
    (144, "app/src/main/res/mipmap-xxhdpi/ic_launcher_round.png");
    (192, "app/src/main/res/mipmap-xxxhdpi/ic_launcher.png");
    (192, "app/src/main/res/mipmap-xxxhdpi/ic_launcher_round.png") ]%string.

Definition newline : string := String (ascii_of_nat 10) EmptyString.

Definition placeholder : string := "# Placeholder icon file" +:+ newline.

(** Lines 79-82, for one entry of the table. *)
Definition write_placeholder (entry : Z * string) : M unit :=
  let '(size, path) := entry in
  makedirs (dirname path) ;;
  f <- open_w path ;;
  f_write f placeholder.

(** Lines 71-83; the result tells whether the [return] of line 83 was
    reached.  The import of line 75 binds names local to [main]: the
    module's globals are left as they were. *)
Definition remedy : M bool :=
  available <- get PIL_AVAILABLE ;;
  if negb available then
    print "PIL (Pillow) is not available. Installing..." ;;
    os_system "pip3 install Pillow" ;;
    try_except
      (import_PIL (pip_provides_pil w) ;;
       set_PIL_AVAILABLE true ;;
       ret false)
      is_ImportError
      (print "Could not install PIL. Creating empty placeholder files." ;;
       for_each icons write_placeholder ;;
       ret true)
  else ret false.

Definition main : M unit :=
  returned <- remedy ;;
  if (returned : bool) then ret tt
  else for_each icons (fun '(size, path) => create_icon size path).

(** Running the script: load the module, then line 89. *)
Definition script : M unit := load_module ;; main.

End Script.

(** The state at process start, over a given directory tree. *)
Definition at_start (t : tree) : state := State false false t [].

Definition run (w : world) (t : tree) : result unit * state :=
  script w (at_start t).

(** The exit status of the interpreter. *)
Definition exit_status (r : result unit) : Z :=
  match r with Ok _ => 0 | Raise _ => 1 end.

Definition invocations (tr : list event) : list (Z * string) :=
  omap (fun e => match e with Invoked s p => Some (s, p) | _ => None end) tr.

Definition shell_commands (tr : list event) : list string :=
  omap (fun e => match e with Shell c => Some c | _ => None end) tr.

Definition printed (tr : list event) : list string :=
  omap (fun e => match e with Printed l => Some l | _ => None end) tr.

(** ** Vocabulary of the properties *)

Definition is_file (o : option node) : bool :=
  match o with Some (File _) => true | _ => false end.

Definition is_dir (o : option node) : bool :=
  match o with Some Dir => true | _ => false end.

(** The keys [mkdir_p above below] visits, outermost first. *)
Fixpoint prefixes_from (above below : list string) : list (list string) :=
  match below with
  | [] => []
  | c :: below' => (above ++ [c]) :: prefixes_from (above ++ [c]) below'
  end.

(** The directories that have to exist before the file [k] can. *)
Definition dirs_of (k : list string) : list (list string) :=
  prefixes_from [] (removelast k).

(** A tree accepts the file [k] when no regular file sits where one of its
    directories has to be and no directory sits at [k] itself. *)
Definition accepts_file (t : tree) (k : list string) : bool :=
  forallb (fun d => negb (is_file (node_at t d))) (dirs_of k)
  && negb (is_dir (node_at t k)).

(** [makedirs] of the parent, then storing [c]: what each entry of the
    table amounts to on the tree. *)
Definition deposit (k : list string) (c : content) (t : tree)
    : result unit * tree :=
  match mkdir_p [] (removelast k) t with
  | (Ok _, t') => store k c t'
  | (Raise e, t') => (Raise e, t')
  end.

Fixpoint deposit_all (l : list (list string * content)) (t : tree)
    : result unit * tree :=
  match l with
  | [] => (Ok tt, t)
  | (k, c) :: l' =>
      match deposit k c t with
      | (Ok _, t') => deposit_all l' t'
      | (Raise e, t') => (Raise e, t')
      end
  end.

(** A table of files is coherent when none of them is at a place where
    another one (or itself) needs a directory. *)
Definition coherent (ks : list (list string)) : bool :=
  forallb (fun k1 => forallb (fun k2 => negb (bool_decide (k1 ∈ dirs_of k2))) ks) ks.

Definition accepts (t : tree) (ks : list (list string)) : bool :=
  forallb (accepts_file t) ks.

(** Two trees are alike off the file [k] when they agree everywhere else
    and, at [k], agree or both hold a regular file. *)
Definition alike (k : list string) (t1 t2 : tree) : Prop :=
  (forall j, j <> k -> t1 !! j = t2 !! j) /\
  (t1 !! k = t2 !! k \/
   (is_file (node_at t1 k) = true /\ is_file (node_at t2 k) = true)).

(** A path is plain when it names a file inside a directory and its parent
    in the tree is the directory [dirname] gives. *)
Definition plain (p : string) : bool :=
  nonempty p && nonempty (dirname p)
  && bool_decide (components (dirname p) = removelast (components p)).




(** *** The icon as the specification words it

    Section 4.1, steps 2 to 6: a square canvas in the background colour;
    the scalable font at a sixth of the size but at least 12, else the
    built-in font, else none; the label's box from the font, or a third
    and a quarter of the size without one; the label centred by integer
    division. *)

Definition scalable_font : string := "/System/Library/Fonts/Arial.ttf".

Definition spec_font (w : world) (size : Z) : option font :=
  let points := Z.max (size / 6) 12 in
  if truetype_loads w scalable_font points
  then Some (FreeTypeFont scalable_font points)
  else if default_font_loads w then Some DefaultFont else None.

Definition spec_label_size (w : world) (size : Z) (f : option font) : Z * Z :=
  match f with
  | Some fnt =>
      let '(x0, y0, x1, y1) := textbbox w fnt "HT" in (x1 - x0, y1 - y0)
  | None => (size / 3, size / 4)
  end.

Definition spec_icon (w : world) (size : Z) : image :=
  let f := spec_font w size in
  let '(dx, dy) := spec_label_size w size f in
  Image "RGB" size size "#1976D2"
        [TextOp ((size - dx) / 2, (size - dy) / 2) "HT" "white" f].

(** The table as deposits: in the degraded path and in the drawing path. *)
Definition placeholders (l : list (Z * string)) : list (list string * content) :=
  (fun e => (components e.2, Text placeholder)) <$> l.

Definition pictures (w : world) (l : list (Z * string))
    : list (list string * content) :=
  (fun e => (components e.2, Png (spec_icon w e.1))) <$> l.

(** The trace a batch of [create_icon] calls leaves on a tree. *)
Fixpoint icon_events (w : world) (l : list (Z * string)) (t : tree) : list event :=
  match l with
  | [] => []
  | (size, path) :: l' =>
      Invoked size path ::
      match deposit (components path) (Png (spec_icon w size)) t with
      | (Ok _, t') => Printed ("Created " +:+ path) :: icon_events w l' t'
      | (Raise _, _) => []
      end
  end.

(** *** The table as the specification words it

    Section 4.2, step 1: five nominal sizes, one per Android density
    bucket, each with a standard and a round file name. *)

Definition density_buckets : list (Z * string) :=
  [ (72, "hdpi"); (48, "mdpi"); (96, "xhdpi"); (144, "xxhdpi");
    (192, "xxxhdpi") ]%string.

Definition launcher_icons (bucket : Z * string) : list (Z * string) :=
  let dir := ("app/src/main/res/mipmap-" +:+ bucket.2)%string in
  [ (bucket.1, dir +:+ "/ic_launcher.png");
    (bucket.1, dir +:+ "/ic_launcher_round.png") ].

(** The keys of the ten files of the table. *)
Definition icon_keys : list (list string) := components <$> icons.*2.

(** ** Sample worlds and trees *)

Definition sample_bbox (f : font) (text : string) : Z * Z * Z * Z :=
  match f with
  | FreeTypeFont _ points => (0, 3, points, points)
  | DefaultFont => (0, 2, 13, 11)
  end.

(** Pillow is installed; the scalable font is not there (the path is a
    macOS one), the built-in font is. *)
Definition pillow_present : world :=
  World true true (fun _ _ => false) true sample_bbox.

(** Pillow is missing when the module is loaded and [pip3] provides it. *)
Definition pillow_after_pip : world :=
  World false true (fun _ _ => false) true sample_bbox.

(** Pillow is missing and [pip3] cannot provide it. *)
Definition pillow_absent : world :=
  World false false (fun _ _ => false) true sample_bbox.

(** A checkout in which [app] is a regular file. *)
Definition blocked_tree : tree := {[ ["app"%string] := File (Text "") ]}.

(** A checkout that has the first icon already, with other content. *)
Definition stale_tree : tree :=
  <[ components "app/src/main/res/mipmap-hdpi/ic_launcher.png" :=
       File (Text "stale") ]>
  (<[ ["app"; "src"; "main"; "res"; "mipmap-hdpi"]%string := Dir ]>
  (<[ ["app"; "src"; "main"; "res"]%string := Dir ]>
  (<[ ["app"; "src"; "main"]%string := Dir ]>
  (<[ ["app"; "src"]%string := Dir ]>
  (<[ ["app"]%string := Dir ]> ∅))))).

(** A path without a slash: a bare file name. *)
Definition slash_free (p : string) : bool :=
  forallb (fun c => negb (Ascii.eqb c slash)) (list_ascii_of_string p).

(** The line [create_icon] prints after a save (line 52). *)
Definition created_line (entry : Z * string) : string :=
  "Created " +:+ entry.2.

(** Pillow is installed and the scalable font loads. *)
Definition pillow_with_scalable_font : world :=
  World true true (fun _ _ => true) true sample_bbox.

(** ** The file system primitives *)

Section Tree.

Implicit Types (t : tree) (k j d : list string) (n : node) (c : content).

Lemma node_at_insert_ne t k j n :
  k ≠ j -> node_at (<[k := n]> t) j = node_at t j.
Proof.
  intros Hne. unfold node_at.
  destruct (always_there j); [reflexivity|]. by rewrite lookup_insert_ne.
Qed.

Lemma node_at_insert_eq t k n :
  always_there k = false -> node_at (<[k := n]> t) k = Some n.
Proof. intros Hk. unfold node_at. rewrite Hk. by rewrite lookup_insert_eq. Qed.

Lemma node_at_absent t k : node_at t k = None -> always_there k = false.
Proof. unfold node_at. by destruct (always_there k). Qed.

Lemma node_at_file t k c :
  node_at t k = Some (File c) -> always_there k = false /\ t !! k = Some (File c).
Proof. unfold node_at. by destruct (always_there k). Qed.

Lemma node_at_lookup t k : always_there k = false -> node_at t k = t !! k.
Proof. intros Hk. unfold node_at. by rewrite Hk. Qed.

Lemma prefixes_from_longer above below d :
  d ∈ prefixes_from above below -> (length above < length d)%nat.
Proof.
  revert above. induction below as [|c below IH]; intros above Hd; simpl in Hd.
  - by apply elem_of_nil in Hd.
  - apply elem_of_cons in Hd as [->|Hd].
    + rewrite length_app. simpl. lia.
    + apply IH in Hd. rewrite length_app in Hd. simpl in Hd. lia.
Qed.

Lemma prefixes_from_bound above below d :
  d ∈ prefixes_from above below -> (length d <= length above + length below)%nat.
Proof.
  revert above. induction below as [|c below IH]; intros above Hd; simpl in Hd.
  - by apply elem_of_nil in Hd.
  - apply elem_of_cons in Hd as [->|Hd].
    + rewrite length_app. simpl. lia.
    + apply IH in Hd. rewrite length_app in Hd. simpl in *. lia.
Qed.

(** *** [mkdir_p] *)

(** Whatever was in the tree stays as it was, also on failure. *)
Lemma mkdir_p_keeps above below t j n :
  node_at t j = Some n -> node_at (mkdir_p above below t).2 j = Some n.
Proof.
  revert above t. induction below as [|c below IH]; intros above t Hj; simpl.
  - done.
  - destruct (node_at t (above ++ [c])) as [[|c']|] eqn:Hk; simpl.
    + by apply IH.
    + done.
    + apply IH. rewrite node_at_insert_ne; [done|]. congruence.
Qed.

(** What is there afterwards was there before, or is a directory made on
    the way. *)
Lemma mkdir_p_made above below t j n :
  node_at (mkdir_p above below t).2 j = Some n ->
  node_at t j = Some n \/
  (node_at t j = None /\ n = Dir /\ j ∈ prefixes_from above below).
Proof.
  revert above t. induction below as [|c below IH]; intros above t; simpl.
  - by left.
  - destruct (node_at t (above ++ [c])) as [[|c']|] eqn:Hk; simpl.
    + intros [H|(H1 & H2 & H3)]%IH; [by left|].
      right. split_and!; [done..|]. by apply elem_of_cons; right.
    + by left.
    + intros [H|(H1 & H2 & H3)]%IH.
      * destruct (decide (above ++ [c] = j)) as [<-|Hne].
        -- rewrite node_at_insert_eq in H by by eapply node_at_absent.
           right. split_and!; [done|congruence|]. by apply elem_of_cons; left.
        -- rewrite node_at_insert_ne in H by done. by left.
      * destruct (decide (above ++ [c] = j)) as [<-|Hne].
        -- rewrite node_at_insert_eq in H1 by by eapply node_at_absent. done.
        -- rewrite node_at_insert_ne in H1 by done.
           right. split_and!; [done..|]. by apply elem_of_cons; right.
Qed.

(** It succeeds exactly when no regular file is in the way ... *)
Lemma mkdir_p_ok_iff above below t :
  (mkdir_p above below t).1 = Ok tt <->
  forall d, d ∈ prefixes_from above below -> is_file (node_at t d) = false.
Proof.
  revert above t. induction below as [|c below IH]; intros above t; simpl.
  - split; [|done]. intros _ d Hd. by apply elem_of_nil in Hd.
  - destruct (node_at t (above ++ [c])) as [[|c']|] eqn:Hk; simpl.
    + rewrite IH. split.
      * intros H d [->|Hd]%elem_of_cons; [by rewrite Hk|by apply H].
      * intros H d Hd. apply H. by apply elem_of_cons; right.
    + split; [by destruct below|].
      intros H. specialize (H (above ++ [c])). rewrite Hk in H.
      discriminate H. by apply elem_of_cons; left.
    + rewrite IH. split.
      * intros H d [->|Hd]%elem_of_cons; [by rewrite Hk|].
        specialize (H d Hd). rewrite node_at_insert_ne in H; [done|].
        intros <-. apply prefixes_from_longer in Hd. lia.
      * intros H d Hd. rewrite node_at_insert_ne.
        -- apply H. by apply elem_of_cons; right.
        -- intros <-. apply prefixes_from_longer in Hd. lia.
Qed.

(** ... and then every directory on the way exists. *)
Lemma mkdir_p_dirs above below t d :
  (mkdir_p above below t).1 = Ok tt ->
  d ∈ prefixes_from above below ->
  node_at (mkdir_p above below t).2 d = Some Dir.
Proof.
  revert above t. induction below as [|c below IH]; intros above t; simpl.
  - intros _ Hd. by apply elem_of_nil in Hd.
  - destruct (node_at t (above ++ [c])) as [[|c']|] eqn:Hk; simpl.
    + intros Hok [->|Hd]%elem_of_cons; [|by apply IH].
      by apply mkdir_p_keeps.
    + by destruct below.
    + intros Hok [->|Hd]%elem_of_cons; [|by apply IH].
      apply mkdir_p_keeps, node_at_insert_eq. by eapply node_at_absent.
Qed.

(** Where the directories are all there it changes nothing. *)
Lemma mkdir_p_settled above below t :
  (forall d, d ∈ prefixes_from above below -> node_at t d = Some Dir) ->
  mkdir_p above below t = (Ok tt, t).
Proof.
  revert above. induction below as [|c below IH]; intros above H; simpl.
  - done.
  - rewrite (H (above ++ [c])) by by apply elem_of_cons; left.
    apply IH. intros d Hd. apply H. by apply elem_of_cons; right.
Qed.

(** Running it again on its own result gives that result again. *)
Lemma mkdir_p_again above below t :
  mkdir_p above below (mkdir_p above below t).2 = mkdir_p above below t.
Proof.
  revert above t. induction below as [|c below IH]; intros above t; simpl.
  - done.
  - destruct (node_at t (above ++ [c])) as [[|c']|] eqn:Hk; simpl.
    + rewrite (mkdir_p_keeps _ _ _ _ _ Hk). apply IH.
    + by rewrite Hk.
    + rewrite (mkdir_p_keeps _ _ _ (above ++ [c]) Dir); [apply IH|].
      apply node_at_insert_eq. by eapply node_at_absent.
Qed.

Lemma prefixes_from_last above below :
  below <> [] -> above ++ below ∈ prefixes_from above below.
Proof.
  revert above. induction below as [|c below IH]; intros above Hne; [done|].
  simpl. destruct below as [|c' below].
  - by apply elem_of_cons; left.
  - apply elem_of_cons; right.
    replace (above ++ c :: c' :: below) with ((above ++ [c]) ++ c' :: below)
      by by rewrite <- app_assoc.
    by apply IH.
Qed.

Lemma length_removelast k : k <> [] -> length k = S (length (removelast k)).
Proof.
  intros Hk. destruct (exists_last Hk) as (k' & x & ->).
  rewrite removelast_last, length_app. simpl. lia.
Qed.

Lemma not_own_dir k : k <> [] -> k ∉ dirs_of k.
Proof.
  intros Hk Hin%prefixes_from_bound. apply length_removelast in Hk.
  simpl in Hin. lia.
Qed.

(** The parent of a file is the working directory or the last of its
    directories. *)
Lemma parent_is_dir t k :
  (forall d, d ∈ dirs_of k -> node_at t d = Some Dir) ->
  node_at t (removelast k) = Some Dir.
Proof.
  intros H. destruct (removelast k) as [|c p] eqn:Hp; [done|].
  apply H. unfold dirs_of. rewrite Hp.
  by apply (prefixes_from_last [] (c :: p)).
Qed.

(** *** [store] *)

Lemma store_ok t k c :
  is_dir (node_at t k) = false ->
  node_at t (removelast k) = Some Dir ->
  store k c t = (Ok tt, <[k := File c]> t).
Proof.
  intros Hk Hp. unfold store. rewrite Hp.
  by destruct (node_at t k) as [[|?]|].
Qed.

(** It writes at [k] or leaves the tree alone. *)
Lemma store_cases t k c :
  (store k c t = (Ok tt, <[k := File c]> t) /\
   is_dir (node_at t k) = false /\ node_at t (removelast k) = Some Dir) \/
  (exists e, store k c t = (Raise e, t)).
Proof.
  unfold store.
  destruct (node_at t k) as [[|c']|] eqn:Hk;
    destruct (node_at t (removelast k)) as [[|c'']|] eqn:Hp; eauto.
Qed.

Lemma not_dir_not_always t k :
  is_dir (node_at t k) = false -> always_there k = false.
Proof. unfold node_at. by destruct (always_there k). Qed.

(** *** [deposit] *)

Lemma deposit_cases k c t :
  let t1 := (mkdir_p [] (removelast k) t).2 in
  (deposit k c t = (Ok tt, <[k := File c]> t1) /\
   (mkdir_p [] (removelast k) t).1 = Ok tt /\
   is_dir (node_at t1 k) = false /\ always_there k = false) \/
  (exists e, deposit k c t = (Raise e, t1)).
Proof.
  intros t1. unfold deposit, t1.
  destruct (mkdir_p [] (removelast k) t) as [[[]|e] t'] eqn:Hmk; simpl.
  - destruct (store_cases t' k c) as [(-> & Hk & _)|[e ->]]; [left|by eauto].
    split_and!; [done..|]. by eapply not_dir_not_always.
  - by eauto.
Qed.

(** What is in the tree afterwards was there before, or is one of the
    file's directories, or is the file. *)
Lemma deposit_made k c t j n :
  node_at (deposit k c t).2 j = Some n ->
  node_at t j = Some n \/ (n = Dir /\ j ∈ dirs_of k) \/ (j = k /\ n = File c).
Proof.
  assert (Hmk : node_at (mkdir_p [] (removelast k) t).2 j = Some n ->
    node_at t j = Some n \/ (n = Dir /\ j ∈ dirs_of k) \/ (j = k /\ n = File c)).
  { intros [H|(H1 & H2 & H3)]%mkdir_p_made; [by left|]. by right; left. }
  destruct (deposit_cases k c t) as [(-> & _ & _ & Hk)|[e ->]]; simpl; [|done].
  destruct (decide (k = j)) as [->|Hne].
  - rewrite node_at_insert_eq by done. intros [= <-]. by right; right.
  - by rewrite node_at_insert_ne.
Qed.

(** Nodes other than the file itself are left as they were. *)
Lemma deposit_keeps k c t j n :
  j <> k -> node_at t j = Some n -> node_at (deposit k c t).2 j = Some n.
Proof.
  intros Hne Hj.
  destruct (deposit_cases k c t) as [(-> & _)|[e ->]]; simpl.
  - rewrite node_at_insert_ne by done. by apply mkdir_p_keeps.
  - by apply mkdir_p_keeps.
Qed.

Lemma deposit_keeps_file k c t j :
  is_file (node_at t j) = true -> is_file (node_at (deposit k c t).2 j) = true.
Proof.
  destruct (node_at t j) as [[|c']|] eqn:Hj; try done. intros _.
  destruct (deposit_cases k c t) as [(-> & _ & _ & Hk)|[e ->]]; simpl.
  - destruct (decide (k = j)) as [->|Hne].
    + by rewrite node_at_insert_eq.
    + rewrite node_at_insert_ne by done.
      by rewrite (mkdir_p_keeps _ _ _ _ _ Hj).
  - by rewrite (mkdir_p_keeps _ _ _ _ _ Hj).
Qed.

Lemma deposit_keeps_dir k c t j :
  is_dir (node_at t j) = true -> is_dir (node_at (deposit k c t).2 j) = true.
Proof.
  destruct (node_at t j) as [[|c']|] eqn:Hj; try done. intros _.
  pose proof (mkdir_p_keeps [] (removelast k) _ _ _ Hj) as Hj1.
  destruct (deposit_cases k c t) as [(-> & _ & Hk & _)|[e ->]]; simpl.
  - destruct (decide (k = j)) as [->|Hne].
    + by rewrite Hj1 in Hk.
    + rewrite node_at_insert_ne by done. by rewrite Hj1.
  - by rewrite Hj1.
Qed.

(** A deposit succeeds exactly on the trees that accept the file. *)
Lemma deposit_ok_iff k c t :
  (deposit k c t).1 = Ok tt <-> accepts_file t k = true.
Proof.
  unfold accepts_file. rewrite andb_true_iff, forallb_forall, negb_true_iff.
  split.
  - intros Hok.
    destruct (deposit_cases k c t) as [(Heq & Hmk & Hk & _)|[e Heq]];
      rewrite Heq in Hok; [|done].
    split.
    + intros d Hd%list_elem_of_In. apply negb_true_iff.
      by apply (proj1 (mkdir_p_ok_iff _ _ _) Hmk).
    + destruct (node_at t k) as [[|c']|] eqn:Hk0; try done.
      by rewrite (mkdir_p_keeps _ _ _ _ _ Hk0) in Hk.
  - intros [Hdirs Hk].
    assert (Hmk : (mkdir_p [] (removelast k) t).1 = Ok tt).
    { apply mkdir_p_ok_iff. intros d Hd%list_elem_of_In.
      by apply negb_true_iff, Hdirs. }
    assert (Hne : k <> []).
    { intros ->. done. }
    unfold deposit.
    destruct (mkdir_p [] (removelast k) t) as [r t1] eqn:Heq.
    simpl in Hmk. subst r.
    assert (Ht1 : t1 = (mkdir_p [] (removelast k) t).2) by by rewrite Heq.
    rewrite store_ok; [done| |].
    + destruct (node_at t1 k) as [[|c']|] eqn:Hk1; try done.
      rewrite Ht1 in Hk1.
      apply mkdir_p_made in Hk1 as [Hk1|(_ & _ & Hin)].
      * by rewrite Hk1 in Hk.
      * by apply not_own_dir in Hin.
    + apply parent_is_dir. intros d Hd. rewrite Ht1.
      apply mkdir_p_dirs; [|done]. by rewrite Heq.
Qed.

(** After a successful deposit the file and its directories are there. *)
Lemma deposit_done k c t :
  (deposit k c t).1 = Ok tt ->
  (deposit k c t).2 !! k = Some (File c) /\
  forall d, d ∈ dirs_of k -> node_at (deposit k c t).2 d = Some Dir.
Proof.
  intros Hok.
  destruct (deposit_cases k c t) as [(Heq & Hmk & Hk & Hal)|[e Heq]];
    rewrite Heq in Hok |- *; [|done].
  simpl. split; [by rewrite lookup_insert_eq|].
  intros d Hd. rewrite node_at_insert_ne.
  - by apply mkdir_p_dirs.
  - intros ->. apply not_own_dir in Hd; [done|]. by intros ->.
Qed.

(** Where the file and its directories are in place already, the deposit
    changes nothing. *)
Lemma deposit_settled k c t :
  (forall d, d ∈ dirs_of k -> node_at t d = Some Dir) ->
  node_at t k = Some (File c) ->
  deposit k c t = (Ok tt, t).
Proof.
  intros Hd Hk. unfold deposit. rewrite mkdir_p_settled by done.
  rewrite store_ok.
  - f_equal. apply insert_id. by apply node_at_file in Hk as [_ ?].
  - by rewrite Hk.
  - by apply parent_is_dir.
Qed.

(** Deposited a second time, on the tree the first attempt left, the
    outcome and the tree are those of the first attempt. *)
Lemma deposit_again k c t :
  deposit k c (deposit k c t).2 = deposit k c t.
Proof.
  destruct (deposit k c t) as [[[]|e] t1] eqn:Heq; simpl.
  - assert (Hok : (deposit k c t).1 = Ok tt) by by rewrite Heq.
    destruct (deposit_done _ _ _ Hok) as [Hk Hd]. rewrite Heq in Hk, Hd.
    apply deposit_settled; [done|].
    destruct (deposit_cases k c t) as [(_ & _ & _ & Hal)|[e' Heq']];
      [|by rewrite Heq' in Hok].
    by rewrite node_at_lookup.
  - revert Heq. unfold deposit.
    destruct (mkdir_p [] (removelast k) t) as [[[]|e1] t'] eqn:Hmk.
    + destruct (store_cases t' k c) as [(-> & _)|[e' Hst]]; [done|].
      rewrite Hst. intros [= <- <-].
      replace t' with (mkdir_p [] (removelast k) t).2 at 1 by by rewrite Hmk.
      by rewrite mkdir_p_again, Hmk, Hst.
    + intros [= <- <-].
      replace t' with (mkdir_p [] (removelast k) t).2 at 1 by by rewrite Hmk.
      by rewrite mkdir_p_again, Hmk.
Qed.

(** *** [deposit_all] *)

Implicit Types (l : list (list string * content)) (ks : list (list string)).

Lemma coherent_spec ks :
  coherent ks = true <->
  forall k1 k2, k1 ∈ ks -> k2 ∈ ks -> k1 ∉ dirs_of k2.
Proof.
  unfold coherent. rewrite forallb_forall. split.
  - intros H k1 k2 H1%list_elem_of_In H2%list_elem_of_In.
    specialize (H k1 H1). rewrite forallb_forall in H.
    specialize (H k2 H2). apply negb_true_iff in H.
    by apply bool_decide_eq_false in H.
  - intros H k1 H1%list_elem_of_In. rewrite forallb_forall.
    intros k2 H2%list_elem_of_In. apply negb_true_iff, bool_decide_eq_false.
    by apply H.
Qed.

Lemma accepts_spec t ks :
  accepts t ks = true <-> forall k, k ∈ ks -> accepts_file t k = true.
Proof.
  unfold accepts. rewrite forallb_forall. split.
  - intros H k Hk%list_elem_of_In. by apply H.
  - intros H k Hk%list_elem_of_In. by apply H.
Qed.

Lemma accepts_file_spec t k :
  accepts_file t k = true <->
  (forall d, d ∈ dirs_of k -> is_file (node_at t d) = false) /\
  is_dir (node_at t k) = false.
Proof.
  unfold accepts_file. rewrite andb_true_iff, forallb_forall, negb_true_iff.
  split; intros [H1 H2]; (split; [|done]).
  - intros d Hd%list_elem_of_In. by apply negb_true_iff, H1.
  - intros d Hd%list_elem_of_In. by apply negb_true_iff, H1.
Qed.

(** A deposit elsewhere does not take the acceptance of a file away ... *)
Lemma accepts_file_after k c t k2 :
  k ∉ dirs_of k2 -> k2 ∉ dirs_of k ->
  accepts_file t k2 = true -> accepts_file (deposit k c t).2 k2 = true.
Proof.
  rewrite !accepts_file_spec. intros Hk Hk2 [Hd Ht]. split.
  - intros d Hin.
    destruct (node_at (deposit k c t).2 d) as [[|c']|] eqn:Hn; try done.
    apply deposit_made in Hn as [Hn|[[? _]|[-> _]]]; [|done..].
    specialize (Hd d Hin). by rewrite Hn in Hd.
  - destruct (node_at (deposit k c t).2 k2) as [[|c']|] eqn:Hn; try done.
    apply deposit_made in Hn as [Hn|[[_ ?]|[_ ?]]]; [|done..].
    by rewrite Hn in Ht.
Qed.

(** ... and never brings one that was missing. *)
Lemma accepts_file_before k c t k2 :
  accepts_file (deposit k c t).2 k2 = true -> accepts_file t k2 = true.
Proof.
  rewrite !accepts_file_spec. intros [Hd Ht]. split.
  - intros d Hin. specialize (Hd d Hin).
    destruct (is_file (node_at t d)) eqn:Hf; [|done].
    by rewrite (deposit_keeps_file k c _ _ Hf) in Hd.
  - destruct (is_dir (node_at t k2)) eqn:Hf; [|done].
    by rewrite (deposit_keeps_dir k c _ _ Hf) in Ht.
Qed.

Lemma deposit_all_ok l t :
  coherent l.*1 = true -> accepts t l.*1 = true ->
  (deposit_all l t).1 = Ok tt.
Proof.
  rewrite coherent_spec. revert t.
  induction l as [|[k c] l IH]; intros t Hco Had; simpl; [done|].
  rewrite accepts_spec in Had.
  assert (Hk : (deposit k c t).1 = Ok tt).
  { apply deposit_ok_iff, Had. simpl. by apply elem_of_cons; left. }
  destruct (deposit k c t) as [r t1] eqn:Heq. simpl in Hk. subst r.
  apply IH.
  - intros k1 k2 H1 H2. apply Hco; simpl; by apply elem_of_cons; right.
  - apply accepts_spec. intros k2 Hk2.
    replace t1 with (deposit k c t).2 by by rewrite Heq.
    apply accepts_file_after.
    + apply Hco; simpl; apply elem_of_cons; [by left|by right].
    + apply Hco; simpl; apply elem_of_cons; [by right|by left].
    + apply Had. simpl. by apply elem_of_cons; right.
Qed.

Lemma deposit_all_ok_only l t :
  (deposit_all l t).1 = Ok tt -> accepts t l.*1 = true.
Proof.
  revert t. induction l as [|[k c] l IH]; intros t; simpl; [done|].
  destruct (deposit k c t) as [[[]|e] t1] eqn:Heq; [|done].
  intros Hok%IH. rewrite accepts_spec in Hok. apply andb_true_iff. split.
  - apply (deposit_ok_iff k c). by rewrite Heq.
  - apply accepts_spec. intros k2 Hk2. apply (accepts_file_before k c).
    rewrite Heq. by apply Hok.
Qed.

Lemma deposit_all_keeps l t j n :
  j ∉ l.*1 -> node_at t j = Some n -> node_at (deposit_all l t).2 j = Some n.
Proof.
  revert t. induction l as [|[k c] l IH]; intros t Hj Hn; simpl; [done|].
  simpl in Hj. apply not_elem_of_cons in Hj as [Hne Hj].
  pose proof (deposit_keeps k c t j n Hne Hn) as Hn1.
  destruct (deposit k c t) as [[[]|e] t1]; simpl in *; [by apply IH|done].
Qed.

Lemma deposit_all_keeps_dir l t j :
  is_dir (node_at t j) = true -> is_dir (node_at (deposit_all l t).2 j) = true.
Proof.
  revert t. induction l as [|[k c] l IH]; intros t Hn; simpl; [done|].
  pose proof (deposit_keeps_dir k c t j Hn) as Hn1.
  destruct (deposit k c t) as [[[]|e] t1]; simpl in *; [by apply IH|done].
Qed.

Lemma deposit_all_dir_stays l t d :
  node_at t d = Some Dir -> node_at (deposit_all l t).2 d = Some Dir.
Proof.
  intros Hd. pose proof (deposit_all_keeps_dir l t d) as H.
  rewrite Hd in H. specialize (H eq_refl).
  by destruct (node_at (deposit_all l t).2 d) as [[|?]|].
Qed.

Lemma deposit_all_keeps_file l t j :
  is_file (node_at t j) = true -> is_file (node_at (deposit_all l t).2 j) = true.
Proof.
  revert t. induction l as [|[k c] l IH]; intros t Hn; simpl; [done|].
  pose proof (deposit_keeps_file k c t j Hn) as Hn1.
  destruct (deposit k c t) as [[[]|e] t1]; simpl in *; [by apply IH|done].
Qed.

(** After a run over a table without repeated files, every file of the
    table holds what the table says and every directory is there. *)
Lemma deposit_all_done l t k c :
  NoDup l.*1 -> (deposit_all l t).1 = Ok tt -> (k, c) ∈ l ->
  (deposit_all l t).2 !! k = Some (File c) /\
  forall d, d ∈ dirs_of k -> node_at (deposit_all l t).2 d = Some Dir.
Proof.
  revert t. induction l as [|[k1 c1] l IH]; intros t Hnd Hok Hin; simpl in *.
  { by apply elem_of_nil in Hin. }
  apply NoDup_cons in Hnd as [Hk1 Hnd].
  destruct (deposit k1 c1 t) as [[[]|e] t1] eqn:Heq; [|done].
  apply elem_of_cons in Hin as [[= -> ->]|Hin]; [|by apply IH].
  assert (H1 : (deposit k1 c1 t).1 = Ok tt) by by rewrite Heq.
  destruct (deposit_done _ _ _ H1) as [Hf Hd]. rewrite Heq in Hf, Hd.
  simpl in Hf, Hd.
  assert (Hal : always_there k1 = false).
  { destruct (deposit_cases k1 c1 t) as [(_ & _ & _ & ?)|[e' He']]; [done|].
    by rewrite He' in H1. }
  split.
  - rewrite <- node_at_lookup by done. apply deposit_all_keeps; [done|].
    by rewrite node_at_lookup.
  - intros d Hdin. by apply deposit_all_dir_stays, Hd.
Qed.

(** Everything in the tree afterwards was there before or comes from the
    table. *)
Lemma deposit_all_made l t j n :
  node_at (deposit_all l t).2 j = Some n ->
  node_at t j = Some n \/
  (n = Dir /\ exists k, k ∈ l.*1 /\ j ∈ dirs_of k) \/
  (exists c, (j, c) ∈ l /\ n = File c).
Proof.
  revert t. induction l as [|[k c] l IH]; intros t; simpl; [by left|].
  assert (Hstep : node_at (deposit k c t).2 j = Some n ->
    node_at t j = Some n \/
    (n = Dir /\ exists k0, k0 ∈ k :: l.*1 /\ j ∈ dirs_of k0) \/
    (exists c0, (j, c0) ∈ (k, c) :: l /\ n = File c0)).
  { intros [H|[[-> H]|[-> ->]]]%deposit_made; [by left| |].
    - right; left. split; [done|]. exists k. split; [|done].
      by apply elem_of_cons; left.
    - right; right. exists c. split; [|done]. by apply elem_of_cons; left. }
  destruct (deposit k c t) as [[[]|e] t1] eqn:Heq; simpl in *; [|done].
  intros [H|[[-> (k0 & H1 & H2)]|(c0 & H1 & ->)]]%IH.
  - by apply Hstep.
  - right; left. split; [done|]. exists k0. split; [|done].
    by apply elem_of_cons; right.
  - right; right. exists c0. split; [|done]. by apply elem_of_cons; right.
Qed.

(** Run a second time, on the tree the first run left, the table gives
    the outcome and the tree of the first run. *)
Lemma deposit_all_again l t :
  NoDup l.*1 -> deposit_all l (deposit_all l t).2 = deposit_all l t.
Proof.
  revert t. induction l as [|[k c] l IH]; intros t Hnd; simpl; [done|].
  simpl in Hnd. apply NoDup_cons in Hnd as [Hk Hnd].
  destruct (deposit k c t) as [[[]|e] t1] eqn:Heq; simpl.
  - assert (H1 : (deposit k c t).1 = Ok tt) by by rewrite Heq.
    destruct (deposit_done _ _ _ H1) as [Hf Hd]. rewrite Heq in Hf, Hd.
    simpl in Hf, Hd.
    assert (Hal : always_there k = false).
    { destruct (deposit_cases k c t) as [(_ & _ & _ & ?)|[e' He']]; [done|].
      by rewrite He' in H1. }
    rewrite deposit_settled.
    + by apply IH.
    + intros d Hdin. by apply deposit_all_dir_stays, Hd.
    + apply deposit_all_keeps; [done|]. by rewrite node_at_lookup.
  - replace t1 with (deposit k c t).2 by by rewrite Heq.
    by rewrite deposit_again, Heq.
Qed.

(** *** What was stored at a file before does not matter *)

Lemma alike_node_at k t1 t2 j :
  alike k t1 t2 ->
  node_at t1 j = node_at t2 j \/
  (j = k /\ is_file (node_at t1 j) = true /\ is_file (node_at t2 j) = true).
Proof.
  intros [Hoff Hat]. destruct (decide (j = k)) as [->|Hne].
  - destruct Hat as [Heq|Hf]; [left|by right].
    unfold node_at. by destruct (always_there k).
  - left. unfold node_at. destruct (always_there j); [done|]. by apply Hoff.
Qed.

Lemma alike_eq k t1 t2 : alike k t1 t2 -> t1 !! k = t2 !! k -> t1 = t2.
Proof.
  intros [Hoff _] Hk. apply map_eq. intros j.
  destruct (decide (j = k)) as [->|Hne]; [done|by apply Hoff].
Qed.

Lemma alike_refl k t : alike k t t.
Proof. split; [done|by left]. Qed.

Lemma alike_insert k t1 t2 j n :
  alike k t1 t2 -> alike k (<[j := n]> t1) (<[j := n]> t2).
Proof.
  intros [Hoff Hat]. split.
  - intros j' Hne. destruct (decide (j = j')) as [->|Hjj].
    + by rewrite !lookup_insert_eq.
    + rewrite !lookup_insert_ne by done. by apply Hoff.
  - destruct (decide (j = k)) as [->|Hjk].
    + left. by rewrite !lookup_insert_eq.
    + rewrite !lookup_insert_ne, !node_at_insert_ne by done. done.
Qed.

Lemma mkdir_p_alike k above below t1 t2 :
  alike k t1 t2 ->
  (mkdir_p above below t1).1 = (mkdir_p above below t2).1 /\
  alike k (mkdir_p above below t1).2 (mkdir_p above below t2).2.
Proof.
  revert above t1 t2.
  induction below as [|c below IH]; intros above t1 t2 Hal; simpl; [done|].
  destruct (alike_node_at _ _ _ (above ++ [c]) Hal) as [Heq|(_ & H1 & H2)].
  - rewrite <- Heq.
    destruct (node_at t1 (above ++ [c])) as [[|c']|]; simpl.
    + by apply IH.
    + done.
    + by apply IH, alike_insert.
  - destruct (node_at t1 (above ++ [c])) as [[|c1]|]; try done.
    destruct (node_at t2 (above ++ [c])) as [[|c2]|]; try done.
Qed.

Lemma store_alike k j c t1 t2 :
  alike k t1 t2 ->
  (store j c t1).1 = (store j c t2).1 /\
  alike k (store j c t1).2 (store j c t2).2 /\
  ((store j c t1).1 = Ok tt -> j = k ->
   (store j c t1).2 !! k = (store j c t2).2 !! k).
Proof.
  intros Hal. unfold store.
  assert (Hd : is_dir (node_at t1 j) = is_dir (node_at t2 j)).
  { destruct (alike_node_at _ _ _ j Hal) as [->|(_ & H1 & H2)]; [done|].
    destruct (node_at t1 j) as [[|?]|]; try done.
    by destruct (node_at t2 j) as [[|?]|]. }
  assert (Hp : node_at t1 (removelast j) = node_at t2 (removelast j) \/
               (is_file (node_at t1 (removelast j)) = true /\
                is_file (node_at t2 (removelast j)) = true)).
  { destruct (alike_node_at _ _ _ (removelast j) Hal) as [->|(_ & H1 & H2)];
      [by left|by right]. }
  destruct (node_at t1 j) as [[|c1]|] eqn:H1;
    destruct (node_at t2 j) as [[|c2]|] eqn:H2; try done;
    (destruct Hp as [<-|[Hp1 Hp2]];
     [ destruct (node_at t1 (removelast j)) as [[|?]|]; simpl;
       (split_and!; [done|by try apply alike_insert|
                     try done; by intros _ ->; rewrite !lookup_insert_eq])
     | destruct (node_at t1 (removelast j)) as [[|?]|]; try done;
       destruct (node_at t2 (removelast j)) as [[|?]|]; try done ]).
Qed.

Lemma deposit_alike k j c t1 t2 :
  alike k t1 t2 ->
  (deposit j c t1).1 = (deposit j c t2).1 /\
  alike k (deposit j c t1).2 (deposit j c t2).2 /\
  ((deposit j c t1).1 = Ok tt -> j = k ->
   (deposit j c t1).2 = (deposit j c t2).2).
Proof.
  intros Hal. unfold deposit.
  destruct (mkdir_p_alike k [] (removelast j) _ _ Hal) as [Hr Ht].
  destruct (mkdir_p [] (removelast j) t1) as [r1 u1].
  destruct (mkdir_p [] (removelast j) t2) as [r2 u2].
  simpl in Hr, Ht. subst r2. destruct r1 as [[]|e]; [|done].
  destruct (store_alike k j c _ _ Ht) as (Hs1 & Hs2 & Hs3).
  split_and!; [done..|].
  intros Hok Hjk. by apply (alike_eq k), Hs3.
Qed.

(** A run of the table over two trees that differ only in what a regular
    file [k] holds ends the same way on both; when it goes through and
    [k] is a file of the table, it leaves the same tree. *)
Lemma deposit_all_alike k l t1 t2 :
  alike k t1 t2 ->
  (deposit_all l t1).1 = (deposit_all l t2).1 /\
  alike k (deposit_all l t1).2 (deposit_all l t2).2 /\
  ((deposit_all l t1).1 = Ok tt -> k ∈ l.*1 ->
   (deposit_all l t1).2 = (deposit_all l t2).2).
Proof.
  revert t1 t2. induction l as [|[j c] l IH]; intros t1 t2 Hal; simpl.
  { split_and!; [done..|]. intros _ Hin. by apply elem_of_nil in Hin. }
  destruct (deposit_alike k j c _ _ Hal) as (Hr & Ht & Heq).
  destruct (deposit j c t1) as [r1 u1]. destruct (deposit j c t2) as [r2 u2].
  simpl in Hr, Ht, Heq. subst r2. destruct r1 as [[]|e]; [|done].
  destruct (IH _ _ Ht) as (IH1 & IH2 & IH3). split_and!; [done..|].
  intros Hok [->|Hin]%elem_of_cons; [|by apply IH3].
  by rewrite (Heq eq_refl eq_refl).
Qed.

End Tree.

(** ** The script on the tree *)

Section OnTheTree.

Variable w : world.

#[local] Arguments write_placeholder : simpl never.
#[local] Arguments create_icon : simpl never.
#[local] Arguments components : simpl never.
#[local] Arguments dirname : simpl never.
#[local] Arguments deposit : simpl never.
#[local] Arguments spec_icon : simpl never.

Lemma plain_spec p :
  plain p = true ->
  p <> EmptyString /\ dirname p <> EmptyString /\
  components (dirname p) = removelast (components p).
Proof.
  unfold plain. rewrite !andb_true_iff, bool_decide_eq_true.
  intros [[Hp Hd] Hc]. split_and!; [by intros ->|by intros Heq; rewrite Heq in Hd|done].
Qed.

Lemma makedirs_plain p st :
  plain p = true ->
  makedirs (dirname p) st =
  ((mkdir_p [] (removelast (components p)) (files st)).1,
   State (PIL_AVAILABLE st) (pil_globals st)
         (mkdir_p [] (removelast (components p)) (files st)).2 (trace st)).
Proof.
  intros (_ & Hd & Hc)%plain_spec. unfold makedirs, on_files.
  destruct (dirname p) eqn:Hdp; [done|]. rewrite Hc.
  by destruct (mkdir_p [] (removelast (components p)) (files st)).
Qed.

(** Lines 80-82 are one deposit of the placeholder text. *)
Lemma write_placeholder_deposit size p st :
  plain p = true ->
  write_placeholder (size, p) st =
  ((deposit (components p) (Text placeholder) (files st)).1,
   State (PIL_AVAILABLE st) (pil_globals st)
         (deposit (components p) (Text placeholder) (files st)).2 (trace st)).
Proof.
  intros Hp. unfold write_placeholder, bind. rewrite makedirs_plain by done.
  apply plain_spec in Hp as (Hne & _ & _).
  unfold deposit.
  destruct (mkdir_p [] (removelast (components p)) (files st)) as [[[]|e] t1];
    simpl; [|done].
  unfold open_w. destruct p as [|a p]; [done|].
  generalize (components (String a p)). intros k.
  unfold f_write. unfold bind, on_files, ret, store. simpl.
  destruct (node_at t1 k) as [[|c1]|];
    destruct (node_at t1 (removelast k)) as [[|c2]|];
    simpl; try done;
    by rewrite lookup_insert_eq, insert_insert_eq.
Qed.

Lemma for_each_write_placeholder l st :
  forallb plain l.*2 = true ->
  for_each l write_placeholder st =
  ((deposit_all (placeholders l) (files st)).1,
   State (PIL_AVAILABLE st) (pil_globals st)
         (deposit_all (placeholders l) (files st)).2 (trace st)).
Proof.
  revert st. induction l as [|[size p] l IH]; intros st Hpl; simpl.
  { by destruct st. }
  simpl in Hpl. apply andb_true_iff in Hpl as [Hp Hpl].
  unfold bind. rewrite write_placeholder_deposit by done.
  destruct (deposit (components p) (Text placeholder) (files st))
    as [[[]|e] t1]; simpl; [|done].
  by rewrite IH.
Qed.

Lemma img_save_plain img p st :
  plain p = true ->
  img_save img p st =
  ((store (components p) (Png img) (files st)).1,
   State (PIL_AVAILABLE st) (pil_globals st)
         (store (components p) (Png img) (files st)).2 (trace st)).
Proof.
  intros (Hne & _ & _)%plain_spec. unfold img_save, on_files.
  destruct p; [done|].
  by destruct (store (components (String a p)) (Png img) (files st)).
Qed.

(** With the library reachable, [create_icon] draws the icon the
    specification describes and goes on to lines 50-52 with it, whatever
    fonts there are. *)
Lemma create_icon_renders size p st :
  PIL_AVAILABLE st = true -> pil_globals st = true ->
  create_icon w size p st =
  (emit (Invoked size p) ;;
   makedirs (dirname p) ;;
   img_save (spec_icon w size) p ;;
   print ("Created " +:+ p)) st.
Proof.
  intros Hav Hgl. destruct st as [av gl t tr]. simpl in Hav, Hgl.
  subst av gl.
  unfold create_icon, spec_icon, spec_font, spec_label_size, scalable_font.
  unfold Image_new, ImageDraw_Draw, ImageFont_truetype,
    ImageFont_load_default, draw_textbbox, draw_text.
  unfold bind, emit, get, global_name, try_except, any_exception. simpl.
  destruct (truetype_loads w "/System/Library/Fonts/Arial.ttf"
              (Z.max (size / 6) 12)); simpl.
  - by destruct (textbbox w _ "HT") as [[[x0 y0] x1] y1].
  - unfold raise at 1. simpl.
    destruct (default_font_loads w); simpl.
    + by destruct (textbbox w _ "HT") as [[[x0 y0] x1] y1].
    + done.
Qed.

(** On a plain path that is one deposit between two trace lines. *)
Lemma create_icon_deposit size p st :
  PIL_AVAILABLE st = true -> pil_globals st = true -> plain p = true ->
  create_icon w size p st =
  let d := deposit (components p) (Png (spec_icon w size)) (files st) in
  (d.1,
   State true true d.2
         (trace st ++ Invoked size p ::
            match d.1 with
            | Ok _ => [Printed ("Created " +:+ p)]
            | Raise _ => []
            end)).
Proof.
  intros Hav Hgl Hp. rewrite create_icon_renders by done.
  destruct st as [av gl t tr]. simpl in Hav, Hgl. subst av gl.
  unfold print. unfold bind, emit. simpl.
  rewrite makedirs_plain by done. simpl. unfold deposit.
  destruct (mkdir_p [] (removelast (components p)) t) as [[[]|e] t1];
    simpl; [|done].
  rewrite img_save_plain by done. simpl.
  destruct (store (components p) _ t1) as [[[]|e] t2]; simpl;
    by rewrite <- ?app_assoc.
Qed.

Lemma for_each_create_icon l st :
  PIL_AVAILABLE st = true -> pil_globals st = true ->
  forallb plain l.*2 = true ->
  for_each l (fun '(size, path) => create_icon w size path) st =
  ((deposit_all (pictures w l) (files st)).1,
   State true true (deposit_all (pictures w l) (files st)).2
         (trace st ++ icon_events w l (files st))).
Proof.
  revert st. induction l as [|[size p] l IH]; intros st Hav Hgl Hpl; simpl.
  { destruct st as [av gl t tr]. simpl in *. subst.
    unfold ret. by rewrite app_nil_r. }
  simpl in Hpl. apply andb_true_iff in Hpl as [Hp Hpl].
  unfold bind. rewrite create_icon_deposit by done. simpl.
  destruct (deposit (components p) (Png (spec_icon w size)) (files st))
    as [[[]|e] t1]; simpl; [|done].
  rewrite IH by done. simpl.
  by rewrite <- app_assoc.
Qed.

End OnTheTree.

(** ** The table *)

Lemma icons_plain : forallb plain icons.*2 = true.
Proof. vm_compute. reflexivity. Qed.

Lemma icons_coherent : coherent icon_keys = true.
Proof. vm_compute. reflexivity. Qed.

Lemma icons_keys_NoDup : NoDup icon_keys.
Proof. apply (bool_decide_eq_true_1 (NoDup _)). vm_compute. reflexivity. Qed.

Lemma pictures_keys w : (pictures w icons).*1 = icon_keys.
Proof. reflexivity. Qed.

Lemma placeholders_keys : (placeholders icons).*1 = icon_keys.
Proof. reflexivity. Qed.

Lemma invocations_app tr1 tr2 :
  invocations (tr1 ++ tr2) = invocations tr1 ++ invocations tr2.
Proof. unfold invocations. by rewrite omap_app. Qed.

(** The calls a batch makes are the entries of the table from its start, in
    order; all of them when no deposit fails. *)
Lemma invocations_icon_events_prefix w l t :
  invocations (icon_events w l t) `prefix_of` l.
Proof.
  revert t. induction l as [|[size p] l IH]; intros t; simpl; [done|].
  destruct (deposit (components p) (Png (spec_icon w size)) t) as [[[]|e] t1].
  - simpl. by apply prefix_cons.
  - simpl. apply prefix_cons, prefix_nil.
Qed.

Lemma invocations_icon_events_all w l t :
  (deposit_all (pictures w l) t).1 = Ok tt ->
  invocations (icon_events w l t) = l.
Proof.
  revert t. induction l as [|[size p] l IH]; intros t; simpl; [done|].
  destruct (deposit (components p) (Png (spec_icon w size)) t) as [[[]|e] t1];
    [|done].
  simpl. intros Hok. f_equal. by apply IH.
Qed.

(** ** The three ways a run can go *)

Section Runs.

Variable w : world.

#[local] Arguments for_each : simpl never.
#[local] Arguments icons : simpl never.
#[local] Arguments deposit_all : simpl never.
#[local] Arguments placeholders : simpl never.
#[local] Arguments pictures : simpl never.

(** Pillow installed: the batch of [create_icon] calls. *)
Lemma run_installed t :
  pil_installed w = true ->
  run w t =
  ((deposit_all (pictures w icons) t).1,
   State true true (deposit_all (pictures w icons) t).2
         (icon_events w icons t)).
Proof.
  intros Hin. unfold run, script, load_module, main, remedy.
  unfold bind, try_except, import_PIL, bind_pil_globals, set_PIL_AVAILABLE,
    get, at_start.
  rewrite Hin. simpl.
  rewrite for_each_create_icon; [done..|apply icons_plain].
Qed.

(** Pillow missing and not provided: the placeholders. *)
Lemma run_degraded t :
  pil_installed w = false -> pip_provides_pil w = false ->
  run w t =
  ((deposit_all (placeholders icons) t).1,
   State false false (deposit_all (placeholders icons) t).2
         [Printed "PIL (Pillow) is not available. Installing...";
          Shell "pip3 install Pillow";
          Printed "Could not install PIL. Creating empty placeholder files."]).
Proof.
  intros Hin Hpip. unfold run, script, load_module, main, remedy.
  unfold print, os_system.
  unfold bind, try_except, import_PIL, bind_pil_globals, set_PIL_AVAILABLE,
    get, at_start, emit.
  rewrite Hin, Hpip. simpl.
  rewrite for_each_write_placeholder by apply icons_plain. cbn [files].
  by destruct (deposit_all (placeholders icons) t) as [[[]|e] t1].
Qed.

(** Pillow missing and then provided: the names of line 7 are still
    unbound when the first [create_icon] reaches line 21. *)
Lemma run_remedied t :
  pil_installed w = false -> pip_provides_pil w = true ->
  run w t =
  (Raise (NameError "Image"),
   State true false t
         [Printed "PIL (Pillow) is not available. Installing...";
          Shell "pip3 install Pillow";
          Invoked 72 "app/src/main/res/mipmap-hdpi/ic_launcher.png"]).
Proof.
  intros Hin Hpip. unfold run, script, load_module, main, remedy.
  unfold print, os_system.
  unfold bind, try_except, import_PIL, bind_pil_globals, set_PIL_AVAILABLE,
    get, at_start, emit.
  rewrite Hin, Hpip. simpl. reflexivity.
Qed.

(** The same, one component at a time. *)
Lemma run_installed_result t :
  pil_installed w = true ->
  (run w t).1 = (deposit_all (pictures w icons) t).1.
Proof.
  intros Hin. rewrite run_installed by done.
  by destruct (deposit_all (pictures w icons) t).
Qed.

Lemma run_installed_files t :
  pil_installed w = true ->
  files (run w t).2 = (deposit_all (pictures w icons) t).2.
Proof.
  intros Hin. rewrite run_installed by done.
  by destruct (deposit_all (pictures w icons) t).
Qed.

Lemma run_installed_trace t :
  pil_installed w = true -> trace (run w t).2 = icon_events w icons t.
Proof.
  intros Hin. rewrite run_installed by done.
  by destruct (deposit_all (pictures w icons) t).
Qed.

Lemma run_degraded_result t :
  pil_installed w = false -> pip_provides_pil w = false ->
  (run w t).1 = (deposit_all (placeholders icons) t).1.
Proof.
  intros Hin Hpip. rewrite run_degraded by done.
  by destruct (deposit_all (placeholders icons) t).
Qed.

Lemma run_degraded_files t :
  pil_installed w = false -> pip_provides_pil w = false ->
  files (run w t).2 = (deposit_all (placeholders icons) t).2.
Proof.
  intros Hin Hpip. rewrite run_degraded by done.
  by destruct (deposit_all (placeholders icons) t).
Qed.

Lemma run_degraded_trace t :
  pil_installed w = false -> pip_provides_pil w = false ->
  trace (run w t).2 =
  [Printed "PIL (Pillow) is not available. Installing...";
   Shell "pip3 install Pillow";
   Printed "Could not install PIL. Creating empty placeholder files."].
Proof.
  intros Hin Hpip. rewrite run_degraded by done.
  by destruct (deposit_all (placeholders icons) t).
Qed.

End Runs.


(** ** Facts about the table and the icon *)

Lemma icon_path_plain size path : (size, path) ∈ icons -> plain path = true.
Proof.
  intros Hin. pose proof icons_plain as H. rewrite forallb_forall in H.
  by apply (list_elem_of_fmap_2 snd), list_elem_of_In, H in Hin.
Qed.

Lemma icon_key_is_kept_in_tree size path :
  (size, path) ∈ icons -> always_there (components path) = false.
Proof.
  intros Hin.
  assert (H : forallb (fun p => negb (always_there (components p))) icons.*2 = true)
    by (vm_compute; reflexivity).
  rewrite forallb_forall in H.
  by apply (list_elem_of_fmap_2 snd), list_elem_of_In, H, negb_true_iff in Hin.
Qed.

Lemma icon_key_in_keys size path :
  (size, path) ∈ icons -> components path ∈ icon_keys.
Proof.
  intros Hin. unfold icon_keys.
  by apply (list_elem_of_fmap_2 snd), (list_elem_of_fmap_2 components) in Hin.
Qed.

Lemma icon_in_placeholders size path :
  (size, path) ∈ icons -> (components path, Text placeholder) ∈ placeholders icons.
Proof.
  intros Hin. unfold placeholders.
  by apply (list_elem_of_fmap_2 (fun e => (components e.2, Text placeholder)))
    in Hin.
Qed.

Lemma icon_in_pictures w size path :
  (size, path) ∈ icons ->
  (components path, Png (spec_icon w size)) ∈ pictures w icons.
Proof.
  intros Hin. unfold pictures.
  by apply (list_elem_of_fmap_2
              (fun e => (components e.2, Png (spec_icon w e.1)))) in Hin.
Qed.

Lemma placeholders_NoDup : NoDup (placeholders icons).*1.
Proof. rewrite placeholders_keys. apply icons_keys_NoDup. Qed.

Lemma pictures_NoDup w : NoDup (pictures w icons).*1.
Proof. rewrite pictures_keys. apply icons_keys_NoDup. Qed.

Lemma placeholders_ok t :
  accepts t icon_keys = true -> (deposit_all (placeholders icons) t).1 = Ok tt.
Proof.
  intros Had. apply deposit_all_ok; rewrite placeholders_keys.
  - exact icons_coherent.
  - exact Had.
Qed.

Lemma pictures_ok w t :
  accepts t icon_keys = true -> (deposit_all (pictures w icons) t).1 = Ok tt.
Proof.
  intros Had. apply deposit_all_ok; rewrite pictures_keys.
  - exact icons_coherent.
  - exact Had.
Qed.

Lemma placeholders_ok_only t :
  (deposit_all (placeholders icons) t).1 = Ok tt -> accepts t icon_keys = true.
Proof. rewrite <- placeholders_keys. apply deposit_all_ok_only. Qed.

Lemma pictures_ok_only w t :
  (deposit_all (pictures w icons) t).1 = Ok tt -> accepts t icon_keys = true.
Proof. rewrite <- (pictures_keys w). apply deposit_all_ok_only. Qed.

(** The icon of the specification has one label on it. *)
Lemma spec_icon_shape w size :
  exists op,
    spec_icon w size = Image "RGB" size size "#1976D2" [op] /\
    label op = "HT"%string /\ fill op = "white"%string /\
    with_font op = spec_font w size /\
    forall dx dy, spec_label_size w size (with_font op) = (dx, dy) ->
                  at_xy op = ((size - dx) / 2, (size - dy) / 2).
Proof.
  unfold spec_icon.
  destruct (spec_label_size w size (spec_font w size)) as [dx dy] eqn:Hd.
  eexists. split; [reflexivity|]. simpl. split_and!; [done..|].
  intros dx' dy' Heq. rewrite Hd in Heq. by injection Heq as <- <-.
Qed.

(** The part of the batch that works: with Pillow installed the calls go
    down the table in order, and reach all ten entries on a tree that
    accepts the ten files. *)
Lemma installed_run_invokes_in_order w t :
  pil_installed w = true ->
  invocations (trace (run w t).2) `prefix_of` icons /\
  (accepts t icon_keys = true ->
   (run w t).1 = Ok tt /\ invocations (trace (run w t).2) = icons).
Proof.
  intros Hin. rewrite run_installed_result, run_installed_trace by done. split.
  - exact (invocations_icon_events_prefix w icons t).
  - intros Had. pose proof (pictures_ok w t Had) as Hok.
    split; [exact Hok|]. exact (invocations_icon_events_all w icons t Hok).
Qed.

(** ** The claims *)

(** C1, at the input where the code departs from it: when Pillow is missing
    as the module is loaded and the install of line 73 provides it, the
    import of line 75 binds [Image], [ImageDraw] and [ImageFont] as locals
    of [main]; the first [create_icon] call finds [Image] unbound at line
    21 and raises [NameError]. One call is made, no file is written, and
    the nine other entries of the table are never reached. *)
Theorem remedied_run_stops_at_first_icon w t :
  pil_installed w = false -> pip_provides_pil w = true ->
  (run w t).1 = Raise (NameError "Image") /\
  files (run w t).2 = t /\
  invocations (trace (run w t).2) = take 1 icons.
Proof. intros Hin Hpip. rewrite run_remedied by done. done. Qed.

Lemma remedied_run_stops_at_first_icon_witness :
  (run pillow_after_pip ∅).1 = Raise (NameError "Image") /\
  files (run pillow_after_pip ∅).2 = ∅ /\
  invocations (trace (run pillow_after_pip ∅).2) = take 1 icons.
Proof.
  apply (remedied_run_stops_at_first_icon pillow_after_pip ∅); reflexivity.
Defined.

(** C2, as the code has it: with Pillow installed, or missing and not
    provided by the install, the run ends, and it ends normally, with exit
    status zero, exactly on the trees that accept the ten files of the
    table: no regular file where a directory of the table has to be, no
    directory at one of the ten paths. On any other tree the error of the
    failing directory creation or file write leaves [main] uncaught. *)
Theorem run_returns_iff_tree_accepts w t :
  pil_installed w = true \/ pip_provides_pil w = false ->
  ((run w t).1 = Ok tt <-> accepts t icon_keys = true) /\
  (exit_status (run w t).1 = 0 <-> accepts t icon_keys = true).
Proof.
  intros Hw.
  assert (H : (run w t).1 = Ok tt <-> accepts t icon_keys = true).
  { destruct (pil_installed w) eqn:Hin.
    - rewrite run_installed_result by done. split.
      + apply pictures_ok_only.
      + apply pictures_ok.
    - destruct Hw as [?|Hpip]; [done|].
      rewrite run_degraded_result by done. split.
      + apply placeholders_ok_only.
      + apply placeholders_ok. }
  split; [exact H|]. rewrite <- H.
  destruct (run w t).1 as [[]|e]; split; done.
Qed.

Lemma run_returns_iff_tree_accepts_witness :
  ((run pillow_absent ∅).1 = Ok tt <-> accepts ∅ icon_keys = true) /\
  (exit_status (run pillow_absent ∅).1 = 0 <-> accepts ∅ icon_keys = true).
Proof.
  apply (run_returns_iff_tree_accepts pillow_absent ∅). right. reflexivity.
Defined.

(** C2 as stated fails: with Pillow installed and [app] a regular file, the
    first [os.makedirs] raises and the interpreter exits with status 1. *)
Lemma run_raises_on_blocked_tree :
  (run pillow_present blocked_tree).1 = Raise NotADirectoryError /\
  exit_status (run pillow_present blocked_tree).1 = 1.
Proof. vm_compute. split; reflexivity. Qed.

(** C3: when Pillow is missing as the module is loaded and still missing
    after the one install attempt, then on a tree that accepts the ten
    files the run creates the parent directory of every entry of the table
    and leaves at the entry's path a text file that holds exactly the line
    [# Placeholder icon file]; it then returns, having run the install
    command once and never entered [create_icon]. *)
Theorem degraded_run_writes_placeholders w t :
  pil_installed w = false -> pip_provides_pil w = false ->
  accepts t icon_keys = true ->
  (run w t).1 = Ok tt /\
  (forall size path, (size, path) ∈ icons ->
     node_at (files (run w t).2) (components (dirname path)) = Some Dir /\
     files (run w t).2 !! components path =
       Some (File (Text ("# Placeholder icon file" +:+ newline)))) /\
  invocations (trace (run w t).2) = [] /\
  shell_commands (trace (run w t).2) = ["pip3 install Pillow"%string].
Proof.
  intros Hin Hpip Had.
  rewrite run_degraded_result, run_degraded_files, run_degraded_trace by done.
  pose proof (placeholders_ok t Had) as Hok.
  split_and!; [exact Hok| |reflexivity..].
  intros size path Hmem.
  destruct (deposit_all_done (placeholders icons) t (components path)
              (Text placeholder) placeholders_NoDup Hok
              (icon_in_placeholders _ _ Hmem)) as [Hfile Hdirs].
  split; [|exact Hfile].
  apply icon_path_plain, plain_spec in Hmem as (_ & _ & ->).
  by apply parent_is_dir.
Qed.

Lemma degraded_run_writes_placeholders_witness :
  (run pillow_absent ∅).1 = Ok tt /\
  (forall size path, (size, path) ∈ icons ->
     node_at (files (run pillow_absent ∅).2) (components (dirname path))
       = Some Dir /\
     files (run pillow_absent ∅).2 !! components path =
       Some (File (Text ("# Placeholder icon file" +:+ newline)))) /\
  invocations (trace (run pillow_absent ∅).2) = [] /\
  shell_commands (trace (run pillow_absent ∅).2) = ["pip3 install Pillow"%string].
Proof.
  apply (degraded_run_writes_placeholders pillow_absent ∅);
    vm_compute; reflexivity.
Defined.

(** C4: for every entry of the table, with the drawing library reachable
    and a tree that accepts the entry's file, [create_icon] returns and
    leaves at the path the PNG of an RGB image of exactly size by size
    pixels, with background [#1976D2] and the single label [HT] drawn in
    white; so the entry of size 48 gives a 48 by 48 PNG. *)
Theorem create_icon_writes_png w size path st :
  (size, path) ∈ icons ->
  PIL_AVAILABLE st = true -> pil_globals st = true ->
  accepts_file (files st) (components path) = true ->
  exists img op,
    (create_icon w size path st).1 = Ok tt /\
    files (create_icon w size path st).2 !! components path
      = Some (File (Png img)) /\
    mode img = "RGB"%string /\ width img = size /\ height img = size /\
    background img = "#1976D2"%string /\
    drawn img = [op] /\ label op = "HT"%string /\ fill op = "white"%string.
Proof.
  intros Hmem Hav Hgl Had.
  pose proof (icon_path_plain _ _ Hmem) as Hpl.
  rewrite create_icon_deposit by done. cbv zeta. cbn [fst snd files].
  destruct (spec_icon_shape w size) as (op & Himg & Hl & Hf & _).
  assert (Hok : (deposit (components path) (Png (spec_icon w size))
                   (files st)).1 = Ok tt) by by apply deposit_ok_iff.
  exists (spec_icon w size), op. split; [exact Hok|].
  split; [by apply deposit_done|].
  rewrite Himg. by cbn.
Qed.

Lemma create_icon_writes_png_witness :
  exists img op,
    (create_icon pillow_present 48 "app/src/main/res/mipmap-mdpi/ic_launcher.png"
       (State true true ∅ [])).1 = Ok tt /\
    files (create_icon pillow_present 48
             "app/src/main/res/mipmap-mdpi/ic_launcher.png"
             (State true true ∅ [])).2
      !! components "app/src/main/res/mipmap-mdpi/ic_launcher.png"
      = Some (File (Png img)) /\
    mode img = "RGB"%string /\ width img = 48 /\ height img = 48 /\
    background img = "#1976D2"%string /\
    drawn img = [op] /\ label op = "HT"%string /\ fill op = "white"%string.
Proof.
  apply (create_icon_writes_png pillow_present 48
           "app/src/main/res/mipmap-mdpi/ic_launcher.png"
           (State true true ∅ [])).
  - apply (bool_decide_eq_true_1 (_ ∈ icons)). vm_compute. reflexivity.
  - reflexivity.
  - reflexivity.
  - vm_compute. reflexivity.
Defined.

(** C5: for every canvas size, with the drawing library reachable,
    [create_icon] hands to [img.save] an image whose single label sits at
    the offset [(size - d) // 2] on each axis, [d] being the label's width
    on x and its height on y (from the font's bounding box, or a third and
    a quarter of the size without a font). The division is the floor one:
    the margin before the label is the margin after it or one pixel less.
    The offset is a function of the size and the label's dimensions, so it
    is the same on every run. *)
Theorem label_offset_is_floor_half w size output_path st :
  PIL_AVAILABLE st = true -> pil_globals st = true ->
  exists img op,
    create_icon w size output_path st =
      (emit (Invoked size output_path) ;;
       makedirs (dirname output_path) ;;
       img_save img output_path ;;
       print ("Created " +:+ output_path)) st /\
    drawn img = [op] /\
    forall dx dy x y,
      spec_label_size w size (with_font op) = (dx, dy) ->
      at_xy op = (x, y) ->
      x = (size - dx) / 2 /\ y = (size - dy) / 2 /\
      2 * x <= size - dx < 2 * x + 2 /\ 2 * y <= size - dy < 2 * y + 2.
Proof.
  intros Hav Hgl.
  destruct (spec_icon_shape w size) as (op & Himg & _ & _ & _ & Hxy).
  exists (spec_icon w size), op. split; [by apply create_icon_renders|].
  split; [by rewrite Himg|].
  intros dx dy x y Hd Hat. rewrite (Hxy _ _ Hd) in Hat.
  injection Hat as <- <-. split_and!; try done.
  - apply Z.mul_div_le. lia.
  - pose proof (Z.mul_succ_div_gt (size - dx) 2). lia.
  - apply Z.mul_div_le. lia.
  - pose proof (Z.mul_succ_div_gt (size - dy) 2). lia.
Qed.

Lemma label_offset_is_floor_half_witness :
  exists img op,
    create_icon pillow_present 48 "res/ic_launcher.png" (State true true ∅ []) =
      (emit (Invoked 48 "res/ic_launcher.png") ;;
       makedirs (dirname "res/ic_launcher.png") ;;
       img_save img "res/ic_launcher.png" ;;
       print ("Created " +:+ "res/ic_launcher.png")) (State true true ∅ []) /\
    drawn img = [op] /\
    forall dx dy x y,
      spec_label_size pillow_present 48 (with_font op) = (dx, dy) ->
      at_xy op = (x, y) ->
      x = (48 - dx) / 2 /\ y = (48 - dy) / 2 /\
      2 * x <= 48 - dx < 2 * x + 2 /\ 2 * y <= 48 - dy < 2 * y + 2.
Proof.
  apply (label_offset_is_floor_half pillow_present 48 "res/ic_launcher.png"
           (State true true ∅ [])); reflexivity.
Defined.

(** C8: for every size and output path, when [PIL_AVAILABLE] is false
    [create_icon] prints its one diagnostic and returns; the tree is the
    one it was given: no file written, no directory created. *)
Theorem create_icon_without_pil_leaves_files w size output_path st :
  PIL_AVAILABLE st = false ->
  (create_icon w size output_path st).1 = Ok tt /\
  files (create_icon w size output_path st).2 = files st /\
  printed (trace (create_icon w size output_path st).2) =
    printed (trace st) ++ ["PIL not available, skipping " +:+ output_path] /\
  shell_commands (trace (create_icon w size output_path st).2) =
    shell_commands (trace st).
Proof.
  intros Hav. unfold create_icon, print, bind, emit, get. cbn.
  rewrite Hav. cbn. unfold printed, shell_commands.
  rewrite <- !app_assoc, !omap_app. cbn. by rewrite app_nil_r.
Qed.

Lemma create_icon_without_pil_leaves_files_witness :
  (create_icon pillow_absent 48 "res/ic_launcher.png" (State false false ∅ [])).1
    = Ok tt /\
  files (create_icon pillow_absent 48 "res/ic_launcher.png"
           (State false false ∅ [])).2 = files (State false false ∅ []) /\
  printed (trace (create_icon pillow_absent 48 "res/ic_launcher.png"
                    (State false false ∅ [])).2) =
    printed (trace (State false false ∅ []))
      ++ ["PIL not available, skipping " +:+ "res/ic_launcher.png"] /\
  shell_commands (trace (create_icon pillow_absent 48 "res/ic_launcher.png"
                           (State false false ∅ [])).2) =
    shell_commands (trace (State false false ∅ [])).
Proof.
  apply (create_icon_without_pil_leaves_files pillow_absent 48
           "res/ic_launcher.png" (State false false ∅ [])).
  reflexivity.
Defined.

(** C6: the table of [main] has exactly ten entries: for each of the five
    density buckets, in the order hdpi, mdpi, xhdpi, xxhdpi, xxxhdpi, the
    standard and then the round file name in that bucket's directory, both
    at the bucket's size. The five sizes 72, 48, 96, 144, 192 are positive
    and distinct, each is the size of exactly two entries, the ten paths
    are distinct and lie in five directories. The table is a constant of
    the script: no run reads it from the world or the tree. *)
Theorem icons_table :
  length icons = 10%nat /\
  icons = flat_map launcher_icons density_buckets /\
  remove_dups icons.*1 = [72; 48; 96; 144; 192] /\
  Forall (fun size =>
            0 < size /\
            length (filter (fun e => e.1 = size) icons) = 2%nat)
         [72; 48; 96; 144; 192] /\
  NoDup icons.*2 /\
  length (remove_dups (dirname <$> icons.*2)) = 5%nat.
Proof.
  split_and!.
  - reflexivity.
  - reflexivity.
  - vm_compute. reflexivity.
  - repeat constructor; vm_compute; reflexivity.
  - apply (bool_decide_eq_true_1 (NoDup _)). vm_compute. reflexivity.
  - vm_compute. reflexivity.
Qed.

(** C9: in the degraded path a second run, over the tree the first run
    left, ends as the first did and leaves the tree as the first left it;
    so each of the ten paths holds after the second run byte for byte what
    it held after the first, which is the placeholder line whenever the
    first run went through. *)
Theorem degraded_run_twice_same_files w t :
  pil_installed w = false -> pip_provides_pil w = false ->
  (run w (files (run w t).2)).1 = (run w t).1 /\
  files (run w (files (run w t).2)).2 = files (run w t).2 /\
  (forall size path, (size, path) ∈ icons ->
     files (run w (files (run w t).2)).2 !! components path =
     files (run w t).2 !! components path) /\
  ((run w t).1 = Ok tt ->
   forall size path, (size, path) ∈ icons ->
     files (run w (files (run w t).2)).2 !! components path =
     Some (File (Text ("# Placeholder icon file" +:+ newline)))).
Proof.
  intros Hin Hpip.
  rewrite !run_degraded_result, !run_degraded_files by done.
  rewrite deposit_all_again by exact placeholders_NoDup.
  split_and!; [reflexivity..|].
  intros Hok size path Hmem.
  by apply (deposit_all_done (placeholders icons) t (components path)
              (Text placeholder) placeholders_NoDup Hok),
           (icon_in_placeholders size).
Qed.

Lemma degraded_run_twice_same_files_witness :
  (run pillow_absent (files (run pillow_absent stale_tree).2)).1 =
    (run pillow_absent stale_tree).1 /\
  files (run pillow_absent (files (run pillow_absent stale_tree).2)).2 =
    files (run pillow_absent stale_tree).2 /\
  (forall size path, (size, path) ∈ icons ->
     files (run pillow_absent (files (run pillow_absent stale_tree).2)).2
       !! components path =
     files (run pillow_absent stale_tree).2 !! components path) /\
  ((run pillow_absent stale_tree).1 = Ok tt ->
   forall size path, (size, path) ∈ icons ->
     files (run pillow_absent (files (run pillow_absent stale_tree).2)).2
       !! components path =
     Some (File (Text ("# Placeholder icon file" +:+ newline)))).
Proof.
  apply (degraded_run_twice_same_files pillow_absent stale_tree); reflexivity.
Defined.

(** Two trees that differ only in what the regular file at an entry's path
    holds. *)
Lemma alike_priors size path c1 c2 t :
  (size, path) ∈ icons ->
  alike (components path)
        (<[components path := File c1]> t) (<[components path := File c2]> t).
Proof.
  intros Hal%icon_key_is_kept_in_tree. split.
  - intros j Hne. by rewrite !lookup_insert_ne.
  - right. by rewrite !node_at_insert_eq.
Qed.

(** C10: both output operations overwrite. For every entry of the table,
    when a regular file with any content is already at the entry's path,
    in a tree that accepts the ten files, a run with Pillow installed, or
    missing and not provided, goes through and leaves at the path what
    this run writes there: the PNG of the entry's icon, or the placeholder
    line. Nothing of the earlier content is left and nothing depends on
    it: with any other earlier content the run goes through as well and
    leaves the very same tree. *)
Theorem prior_content_is_overwritten w t size path c1 c2 :
  (size, path) ∈ icons ->
  accepts (<[components path := File c1]> t) icon_keys = true ->
  pil_installed w = true \/ pip_provides_pil w = false ->
  (run w (<[components path := File c1]> t)).1 = Ok tt /\
  files (run w (<[components path := File c1]> t)).2 !! components path =
    Some (File (if pil_installed w
                then Png (spec_icon w size)
                else Text ("# Placeholder icon file" +:+ newline))) /\
  (run w (<[components path := File c2]> t)).1 = Ok tt /\
  files (run w (<[components path := File c2]> t)).2 =
  files (run w (<[components path := File c1]> t)).2.
Proof.
  intros Hmem Hacc Hw.
  pose proof (alike_priors size path c1 c2 t Hmem) as Hal.
  pose proof (icon_key_in_keys _ _ Hmem) as Hkey.
  destruct (pil_installed w) eqn:Hin; cbv iota.
  - rewrite !run_installed_result, !run_installed_files by done.
    pose proof (pictures_ok w _ Hacc) as Hok.
    destruct (deposit_all_alike _ (pictures w icons) _ _ Hal) as (H1 & _ & H3).
    split; [exact Hok|]. split; [|split; [by rewrite <- H1|]].
    + by apply (deposit_all_done (pictures w icons) _ (components path)
                  (Png (spec_icon w size)) (pictures_NoDup w) Hok),
               icon_in_pictures.
    + symmetry. apply H3; [exact Hok|]. by rewrite pictures_keys.
  - destruct Hw as [?|Hpip]; [done|].
    rewrite !run_degraded_result, !run_degraded_files by done.
    pose proof (placeholders_ok _ Hacc) as Hok.
    destruct (deposit_all_alike _ (placeholders icons) _ _ Hal) as (H1 & _ & H3).
    split; [exact Hok|]. split; [|split; [by rewrite <- H1|]].
    + by apply (deposit_all_done (placeholders icons) _ (components path)
                  (Text placeholder) placeholders_NoDup Hok),
               (icon_in_placeholders size).
    + symmetry. apply H3; [exact Hok|]. by rewrite placeholders_keys.
Qed.

Lemma prior_content_is_overwritten_witness :
  ((run pillow_present
      (<[components "app/src/main/res/mipmap-hdpi/ic_launcher.png"
         := File (Text "stale")]> stale_tree)).1 = Ok tt /\
   files (run pillow_present
            (<[components "app/src/main/res/mipmap-hdpi/ic_launcher.png"
               := File (Text "stale")]> stale_tree)).2
     !! components "app/src/main/res/mipmap-hdpi/ic_launcher.png" =
     Some (File (if pil_installed pillow_present
                 then Png (spec_icon pillow_present 72)
                 else Text ("# Placeholder icon file" +:+ newline))) /\
   (run pillow_present
      (<[components "app/src/main/res/mipmap-hdpi/ic_launcher.png"
         := File (Text "other")]> stale_tree)).1 = Ok tt /\
   files (run pillow_present
            (<[components "app/src/main/res/mipmap-hdpi/ic_launcher.png"
               := File (Text "other")]> stale_tree)).2 =
   files (run pillow_present
            (<[components "app/src/main/res/mipmap-hdpi/ic_launcher.png"
               := File (Text "stale")]> stale_tree)).2) /\
  ((run pillow_absent
      (<[components "app/src/main/res/mipmap-hdpi/ic_launcher.png"
         := File (Text "stale")]> stale_tree)).1 = Ok tt /\
   files (run pillow_absent
            (<[components "app/src/main/res/mipmap-hdpi/ic_launcher.png"
               := File (Text "stale")]> stale_tree)).2
     !! components "app/src/main/res/mipmap-hdpi/ic_launcher.png" =
     Some (File (if pil_installed pillow_absent
                 then Png (spec_icon pillow_absent 72)
                 else Text ("# Placeholder icon file" +:+ newline))) /\
   (run pillow_absent
      (<[components "app/src/main/res/mipmap-hdpi/ic_launcher.png"
         := File (Png (spec_icon pillow_present 72))]> stale_tree)).1 = Ok tt /\
   files (run pillow_absent
            (<[components "app/src/main/res/mipmap-hdpi/ic_launcher.png"
               := File (Png (spec_icon pillow_present 72))]> stale_tree)).2 =
   files (run pillow_absent
            (<[components "app/src/main/res/mipmap-hdpi/ic_launcher.png"
               := File (Text "stale")]> stale_tree)).2).
Proof.
  split.
  - apply (prior_content_is_overwritten pillow_present stale_tree 72
             "app/src/main/res/mipmap-hdpi/ic_launcher.png"
             (Text "stale") (Text "other")).
    + apply (bool_decide_eq_true_1 (_ ∈ icons)). vm_compute. reflexivity.
    + vm_compute. reflexivity.
    + left. reflexivity.
  - apply (prior_content_is_overwritten pillow_absent stale_tree 72
             "app/src/main/res/mipmap-hdpi/ic_launcher.png"
             (Text "stale") (Png (spec_icon pillow_present 72))).
    + apply (bool_decide_eq_true_1 (_ ∈ icons)). vm_compute. reflexivity.
    + vm_compute. reflexivity.
    + right. reflexivity.
Defined.

(** ** Further properties of the script *)

Lemma printed_app tr1 tr2 : printed (tr1 ++ tr2) = printed tr1 ++ printed tr2.
Proof. unfold printed. by rewrite omap_app. Qed.

Lemma shell_commands_app tr1 tr2 :
  shell_commands (tr1 ++ tr2) = shell_commands tr1 ++ shell_commands tr2.
Proof. unfold shell_commands. by rewrite omap_app. Qed.

Lemma upto_last_slash_rev_slash_free r :
  forallb (fun c => negb (Ascii.eqb c slash)) r = true ->
  upto_last_slash_rev r = [].
Proof.
  induction r as [|c r IH]; [done|]. simpl.
  intros [Hc Hr]%andb_true_iff. apply negb_true_iff in Hc. rewrite Hc.
  by apply IH.
Qed.

(** [os.path.dirname] of a bare file name is the empty string. *)
Lemma dirname_slash_free p : slash_free p = true -> dirname p = EmptyString.
Proof.
  unfold slash_free, dirname. intros H.
  rewrite upto_last_slash_rev_slash_free; [done|].
  rewrite forallb_forall in H |- *. intros c Hc. apply H.
  by apply in_rev.
Qed.

(** X1: a bare file name as output path makes [create_icon] fail: the
    directory part is empty, [os.makedirs('')] raises [FileNotFoundError]
    before anything is saved; the tree is untouched and no line is
    printed. *)
Theorem create_icon_bare_name_raises w size output_path st :
  PIL_AVAILABLE st = true -> pil_globals st = true ->
  slash_free output_path = true ->
  (create_icon w size output_path st).1 = Raise FileNotFoundError /\
  files (create_icon w size output_path st).2 = files st /\
  printed (trace (create_icon w size output_path st).2) = printed (trace st).
Proof.
  intros Hav Hgl Hsf. rewrite create_icon_renders by done.
  unfold bind, emit, makedirs. rewrite dirname_slash_free by done.
  unfold raise. cbn. rewrite printed_app. cbn. by rewrite app_nil_r.
Qed.

Lemma create_icon_bare_name_raises_witness :
  (create_icon pillow_present 48 "icon.png" (State true true ∅ [])).1
    = Raise FileNotFoundError /\
  files (create_icon pillow_present 48 "icon.png" (State true true ∅ [])).2
    = files (State true true ∅ []) /\
  printed (trace (create_icon pillow_present 48 "icon.png"
                    (State true true ∅ [])).2)
    = printed (trace (State true true ∅ [])).
Proof.
  apply (create_icon_bare_name_raises pillow_present 48 "icon.png"
           (State true true ∅ [])); reflexivity.
Defined.

(** X2: whenever [PIL_AVAILABLE] is true while the names of line 7 are
    unbound, the state [main] produces after a successful install,
    [create_icon] raises [NameError] for [Image] at line 21, for every
    size and path, before it touches the tree or prints. *)
Theorem create_icon_unbound_names_raises w size output_path st :
  PIL_AVAILABLE st = true -> pil_globals st = false ->
  (create_icon w size output_path st).1 = Raise (NameError "Image") /\
  files (create_icon w size output_path st).2 = files st /\
  printed (trace (create_icon w size output_path st).2) = printed (trace st).
Proof.
  intros Hav Hgl.
  unfold create_icon, Image_new, bind, emit, get, global_name. cbn.
  rewrite Hav, Hgl. cbn. rewrite printed_app. cbn. by rewrite app_nil_r.
Qed.

Lemma create_icon_unbound_names_raises_witness :
  (create_icon pillow_after_pip 48 "res/ic_launcher.png"
     (State true false ∅ [])).1 = Raise (NameError "Image") /\
  files (create_icon pillow_after_pip 48 "res/ic_launcher.png"
           (State true false ∅ [])).2 = files (State true false ∅ []) /\
  printed (trace (create_icon pillow_after_pip 48 "res/ic_launcher.png"
                    (State true false ∅ [])).2)
    = printed (trace (State true false ∅ [])).
Proof.
  apply (create_icon_unbound_names_raises pillow_after_pip 48
           "res/ic_launcher.png" (State true false ∅ [])); reflexivity.
Defined.







Lemma shell_commands_icon_events (w : world) (l : list (Z * string)) (t : tree) :
  shell_commands (icon_events w l t) = [].
Proof.
  revert t. induction l as [|[size p] l IH]; intros t; simpl; [done|].
  destruct (deposit (components p) (Png (spec_icon w size)) t) as [[[]|e] t1];
    [|done].
  unfold shell_commands in *. simpl. apply IH.
Qed.

(** X4: the install command of line 73 is run exactly when Pillow cannot
    be imported as the module is loaded, and then exactly once, whatever
    the tree and however the run ends; with Pillow installed no shell
    command is run at all. *)
Theorem install_command_runs_only_without_pil (w : world) (t : tree) :
  (pil_installed w = true -> shell_commands (trace (run w t).2) = []) /\
  (pil_installed w = false ->
   shell_commands (trace (run w t).2) = ["pip3 install Pillow"%string]).
Proof.
  split; intros Hin.
  - rewrite run_installed_trace by done.
    exact (shell_commands_icon_events w icons t).
  - destruct (pip_provides_pil w) eqn:Hpip.
    + by rewrite run_remedied.
    + by rewrite run_degraded_trace.
Qed.

Lemma printed_icon_events_truthful (w : world) (l : list (Z * string))
    (t : tree) (line : string) :
  NoDup (pictures w l).*1 ->
  line ∈ printed (icon_events w l t) ->
  exists size path,
    (size, path) ∈ l /\ line = ("Created " +:+ path)%string /\
    (deposit_all (pictures w l) t).2 !! components path
      = Some (File (Png (spec_icon w size))).
Proof.
  revert t. induction l as [|[size p] l IH]; intros t Hnd Hin.
  { by apply elem_of_nil in Hin. }
  change (pictures w ((size, p) :: l))
    with ((components p, Png (spec_icon w size)) :: pictures w l) in *.
  cbn [fmap list_fmap fst] in Hnd. apply NoDup_cons in Hnd as [Hk Hnd].
  cbn [icon_events deposit_all] in *.
  destruct (deposit_cases (components p) (Png (spec_icon w size)) t)
    as [(Heq & _ & _ & Hal)|[e Heq]]; rewrite Heq in Hin |- *.
  - change (line ∈ ("Created " +:+ p)%string
                   :: printed (icon_events w l
                        (<[components p := File (Png (spec_icon w size))]>
                           (mkdir_p [] (removelast (components p)) t).2)))
      in Hin.
    apply elem_of_cons in Hin as [->|Hin].
    + exists size, p. split; [by apply elem_of_cons; left|]. split; [done|].
      rewrite <- node_at_lookup by done. apply deposit_all_keeps; [done|].
      by apply node_at_insert_eq.
    + destruct (IH _ Hnd Hin) as (size' & path' & Hmem & Hline & Hfile).
      exists size', path'. split; [by apply elem_of_cons; right|done].
  - by apply elem_of_nil in Hin.
Qed.

Lemma printed_icon_events_all (w : world) (l : list (Z * string)) (t : tree) :
  (deposit_all (pictures w l) t).1 = Ok tt ->
  printed (icon_events w l t) = created_line <$> l.
Proof.
  revert t. induction l as [|[size p] l IH]; intros t; [done|].
  change (pictures w ((size, p) :: l))
    with ((components p, Png (spec_icon w size)) :: pictures w l).
  cbn [icon_events deposit_all].
  destruct (deposit (components p) (Png (spec_icon w size)) t) as [[[]|e] t1];
    [|done].
  intros Hok. rewrite fmap_cons, <- (IH t1 Hok). reflexivity.
Qed.

(** X5: with Pillow installed, the [Created] lines of a run tell the truth,
    also when the run ends in an error: a line is printed only for an
    entry of the table, after its file was saved, and the file is still
    the PNG of that entry's icon when the run ends. A run that returns has
    printed the ten lines, one per entry, in the order of the table. *)
Theorem created_lines_are_truthful (w : world) (t : tree) :
  pil_installed w = true ->
  (forall line, line ∈ printed (trace (run w t).2) ->
     exists size path,
       (size, path) ∈ icons /\ line = ("Created " +:+ path)%string /\
       files (run w t).2 !! components path
         = Some (File (Png (spec_icon w size)))) /\
  ((run w t).1 = Ok tt ->
   printed (trace (run w t).2) = created_line <$> icons).
Proof.
  intros Hin.
  rewrite run_installed_result, run_installed_trace, run_installed_files
    by done.
  split.
  - intros line. exact (printed_icon_events_truthful w icons t line
                          (pictures_NoDup w)).
  - exact (printed_icon_events_all w icons t).
Qed.

Lemma created_lines_are_truthful_witness :
  (forall line, line ∈ printed (trace (run pillow_present ∅).2) ->
     exists size path,
       (size, path) ∈ icons /\ line = ("Created " +:+ path)%string /\
       files (run pillow_present ∅).2 !! components path
         = Some (File (Png (spec_icon pillow_present size)))) /\
  ((run pillow_present ∅).1 = Ok tt ->
   printed (trace (run pillow_present ∅).2) = created_line <$> icons).
Proof.
  apply (created_lines_are_truthful pillow_present ∅). reflexivity.
Defined.

(** X6: with Pillow installed, a second run over the tree the first run
    left ends as the first did and leaves the tree as it was: the ten
    files hold the PNG of the same images, and a run stopped by an error
    stops at the same entry with the same error. *)
Theorem installed_run_twice_same_files (w : world) (t : tree) :
  pil_installed w = true ->
  (run w (files (run w t).2)).1 = (run w t).1 /\
  files (run w (files (run w t).2)).2 = files (run w t).2.
Proof.
  intros Hin.
  rewrite !run_installed_result, !run_installed_files by done.
  rewrite deposit_all_again by exact (pictures_NoDup w).
  split; reflexivity.
Qed.

Lemma installed_run_twice_same_files_witness :
  (run pillow_present (files (run pillow_present blocked_tree).2)).1
    = (run pillow_present blocked_tree).1 /\
  files (run pillow_present (files (run pillow_present blocked_tree).2)).2
    = files (run pillow_present blocked_tree).2.
Proof.
  apply (installed_run_twice_same_files pillow_present blocked_tree).
  reflexivity.
Defined.

(** X7: with Pillow installed, a run touches nothing but the table's own
    files and directories, whatever the tree and the way the run ends.
    Every node of the starting tree off the ten paths is still there,
    unchanged: nothing is deleted, no other file is written. And every node
    of the final tree was there from the start, or is a directory on the
    way to one of the ten paths, or is one of the ten files holding the PNG
    of its entry's icon. *)
Theorem run_touches_only_the_table (w : world) (t : tree) :
  pil_installed w = true ->
  (forall j n, j ∉ icon_keys -> node_at t j = Some n ->
     node_at (files (run w t).2) j = Some n) /\
  (forall j n, node_at (files (run w t).2) j = Some n ->
     node_at t j = Some n \/
     (n = Dir /\ exists k, k ∈ icon_keys /\ j ∈ dirs_of k) \/
     (exists size path,
        (size, path) ∈ icons /\ j = components path /\
        n = File (Png (spec_icon w size)))).
Proof.
  intros Hin. rewrite run_installed_files by done. split.
  - intros j n Hj. apply deposit_all_keeps. by rewrite pictures_keys.
  - intros j n [H|[[-> H]|(c & Hc & ->)]]%deposit_all_made; [by left| |].
    + right; left. split; [done|]. by rewrite pictures_keys in H.
    + right; right. unfold pictures in Hc.
      apply list_elem_of_fmap in Hc as ([size path] & [= -> ->] & Hmem).
      by exists size, path.
Qed.

Lemma run_touches_only_the_table_witness :
  (forall j n, j ∉ icon_keys -> node_at stale_tree j = Some n ->
     node_at (files (run pillow_present stale_tree).2) j = Some n) /\
  (forall j n, node_at (files (run pillow_present stale_tree).2) j = Some n ->
     node_at stale_tree j = Some n \/
     (n = Dir /\ exists k, k ∈ icon_keys /\ j ∈ dirs_of k) \/
     (exists size path,
        (size, path) ∈ icons /\ j = components path /\
        n = File (Png (spec_icon pillow_present size)))).
Proof.
  apply (run_touches_only_the_table pillow_present stale_tree). reflexivity.
Defined.



(** X9: the scalable font, when it loads, is asked for at no less than 12
    points: at a sixth of the size (rounded down) from size 72 on, and at
    12 points for every smaller icon. *)
Theorem scalable_font_points (w : world) (size : Z) (output_path : string)
    (st : state) :
  PIL_AVAILABLE st = true -> pil_globals st = true ->
  exists img op,
    create_icon w size output_path st =
      (emit (Invoked size output_path) ;;
       makedirs (dirname output_path) ;;
       img_save img output_path ;;
       print ("Created " +:+ output_path)) st /\
    drawn img = [op] /\
    forall file points,
      with_font op = Some (FreeTypeFont file points) ->
      12 <= points /\
      (72 <= size -> points = size / 6) /\
      (size < 72 -> points = 12).
Proof.
  intros Hav Hgl.
  destruct (spec_icon_shape w size) as (op & Himg & _ & _ & Hf & _).
  exists (spec_icon w size), op. split; [by apply create_icon_renders|].
  split; [by rewrite Himg|].
  intros file points. rewrite Hf. unfold spec_font.
  destruct (truetype_loads w scalable_font (Z.max (size / 6) 12));
    [|by destruct (default_font_loads w)].
  intros [= _ <-]. split_and!.
  - lia.
  - intros Hs. assert (12 <= size / 6) by (apply Z.div_le_lower_bound; lia).
    lia.
  - intros Hs. assert (size / 6 < 12) by (apply Z.div_lt_upper_bound; lia).
    lia.
Qed.

Lemma scalable_font_points_witness :
  exists img op,
    create_icon pillow_with_scalable_font 96 "res/ic_launcher.png" (State true true ∅ []) =
      (emit (Invoked 96 "res/ic_launcher.png") ;;
       makedirs (dirname "res/ic_launcher.png") ;;
       img_save img "res/ic_launcher.png" ;;
       print ("Created " +:+ "res/ic_launcher.png")) (State true true ∅ []) /\
    drawn img = [op] /\
    forall file points,
      with_font op = Some (FreeTypeFont file points) ->
      12 <= points /\
      (72 <= 96 -> points = 96 / 6) /\
      (96 < 72 -> points = 12).
Proof.
  apply (scalable_font_points pillow_with_scalable_font 96 "res/ic_launcher.png"
           (State true true ∅ [])); reflexivity.
Defined.

(** X10: in the degraded path, whatever the tree and also when a directory
    creation or a write fails midway, [create_icon] is never entered, no
    [Created] line is printed, the two diagnostics of lines 72 and 78 are
    the only output, and [PIL_AVAILABLE] is still false at the end. *)
Theorem degraded_run_never_draws (w : world) (t : tree) :
  pil_installed w = false -> pip_provides_pil w = false ->
  invocations (trace (run w t).2) = [] /\
  printed (trace (run w t).2) =
    [ "PIL (Pillow) is not available. Installing...";
      "Could not install PIL. Creating empty placeholder files." ]%string /\
  PIL_AVAILABLE (run w t).2 = false.
Proof.
  intros Hin Hpip. rewrite run_degraded_trace by done.
  split_and!; [reflexivity..|].
  rewrite run_degraded by done. reflexivity.
Qed.

Lemma degraded_run_never_draws_witness :
  invocations (trace (run pillow_absent blocked_tree).2) = [] /\
  printed (trace (run pillow_absent blocked_tree).2) =
    [ "PIL (Pillow) is not available. Installing...";
      "Could not install PIL. Creating empty placeholder files." ]%string /\
  PIL_AVAILABLE (run pillow_absent blocked_tree).2 = false.
Proof.
  apply (degraded_run_never_draws pillow_absent blocked_tree); reflexivity.
Defined.


